(** * Itinerary reordering and budget aggregates

    A shallow embedding of the drag-and-drop handler of
    [ItineraryBuilderPage.jsx] ([handleDragEnd]) and of the aggregate
    computations of [helpers.js], [BudgetPage.jsx] and
    [ItineraryViewPage.jsx], with the properties the specification states
    about them.

    Conventions.
    - A JavaScript array is a [list]; an array that may hold [undefined]
      is a [list (option A)], [None] standing for [undefined].
    - [Array.prototype.splice] mutates its receiver and returns the removed
      elements: the embedding returns both, the removed elements first.
    - Indices handed over by the drag-and-drop library are integers ([Z]);
      [splice] clamps them as ECMAScript prescribes.
    - Amounts of money are JavaScript numbers, that is IEEE 754 binary64
      values: they are primitive floats ([float]), whose operations round
      as the JavaScript ones do; [NaN] is one of the values.
    - A plain object used as a dictionary ([{}]) is the [gmap string _] of
      its own properties; a read that finds no own property falls back on
      the members of [Object.prototype].

    Beyond the reorder engine and the aggregates, the file embeds the
    other handlers of the builder ([addNewDay], [addNewActivity],
    [updateActivity], [deleteActivity]), the derived views of the budget
    page ([getDailyCosts], [getBudgetAlerts]), and of helpers.js
    [getDateRangeInclusive] and [isValidEmail], and [saveSearch] of the
    search page. What these
    functions get from libraries or from the browser ([parseFloat],
    [generateId], [formatCurrency], [addDays], ..) is a parameter. *)

From Stdlib Require Import QArith Floats.
From stdpp Require Import base list strings gmap fin_maps.

Set Warnings "-inexact-float".

Local Open Scope Z_scope.

(** ** Arrays *)

Module JsArray.
Section Splice.
Context {X : Type}.

(** The [relativeStart] clamp of [splice]: a negative [start] counts from
    the end and stops at 0, a [start] beyond the end stops at the length. *)
Definition relativeStart (len : nat) (start : Z) : nat :=
  if start <? 0 then Z.to_nat (Z.max (Z.of_nat len + start) 0)
  else Z.to_nat (Z.min start (Z.of_nat len)).

(** [actualDeleteCount]: the delete count clamped to [0 .. len - start]. *)
Definition actualDeleteCount (len actualStart : nat) (deleteCount : Z) : nat :=
  Z.to_nat (Z.min (Z.max deleteCount 0) (Z.of_nat len - Z.of_nat actualStart)).

(** [arr.splice(start, deleteCount, ...items)]: the removed elements and
    the array as it is afterwards. *)
Definition splice (arr : list X) (start deleteCount : Z) (items : list X)
  : list X * list X :=
  let len := length arr in
  let actualStart := relativeStart len start in
  let dc := actualDeleteCount len actualStart deleteCount in
  (take dc (drop actualStart arr),
   take actualStart arr ++ items ++ drop (actualStart + dc) arr).
End Splice.

(** [Array.from(xs)] on an array of objects: a fresh copy, every slot
    defined. *)
Definition from {A : Type} (xs : list A) : list (option A) := Some <$> xs.

(** [const [first] = xs]: the first element, [undefined] when there is
    none. *)
Definition destructure_first {A : Type} (xs : list (option A)) : option A :=
  match xs with
  | [] => None
  | x :: _ => x
  end.

(** The two [splice] calls shared by the three branches of the handler
    when one array is reordered in place:
    [[removed] = arr.splice(source, 1); arr.splice(dest, 0, removed)]. *)
Definition reorder {A : Type} (arr : list (option A)) (sourceIndex destIndex : Z)
  : list (option A) :=
  let '(removedList, arr1) := splice arr sourceIndex 1 [] in
  let removed := destructure_first removedList in
  let '(_, arr2) := splice arr1 destIndex 0 [removed] in
  arr2.
End JsArray.

(** ** Data model *)

Module Activity.
(** An activity as stored inside a day's [activities] array. [cost] and
    [category] may be missing from a stored document. *)
Record t := mk {
  id : string;
  name : string;
  description : string;
  location : string;
  startTime : string;
  endTime : string;
  cost : option float;
  category : option string
}.
End Activity.

Module Day.
(** An itinerary document together with its document id. [activities]
    is [None] when the field is missing. *)
Record t := mk {
  id : string;
  tripId : string;
  date : string;
  title : string;
  description : string;
  order : Z;
  activities : option (list Activity.t)
}.

Definition set_order (index : Z) (d : t) : t :=
  mk (id d) (tripId d) (date d) (title d) (description d) index (activities d).
End Day.

(** What the drag-and-drop library reports when a drag ends. *)
Record DraggableLocation := {
  droppableId : string;
  index : Z
}.

Record DropResult := {
  source : DraggableLocation;
  destination : option DraggableLocation;
  type : string
}.

(** ** The handler's effects *)

(** A call of [updateDoc(doc(db, 'itineraries', docId), fields)]. *)
Inductive write :=
  | SetOrder (docId : string) (index : Z)
  | SetActivities (docId : string) (activities : list (option Activity.t)).

(** How a run of the handler ends: it returns, or a [TypeError] escapes
    (reading a property of [undefined]). *)
Inductive outcome :=
  | Returned
  | Threw_TypeError.

(** ** The reorder engine, as inlined in [handleDragEnd] *)

(** Lines 92-94: the reordered copy of the days. *)
Definition reorderedItineraries (itineraries : list Day.t) (sourceIndex destIndex : Z)
  : list (option Day.t) :=
  JsArray.reorder (JsArray.from itineraries) sourceIndex destIndex.

(** Lines 97-99: [reorderedItineraries.map((item, index) => updateDoc(..
    item.id .., { order: index }))]. The calls are issued left to right;
    reading [item.id] of an [undefined] slot throws and ends the map. *)
Fixpoint orderUpdates (index : nat) (items : list (option Day.t))
  : list write * outcome :=
  match items with
  | [] => ([], Returned)
  | None :: _ => ([], Threw_TypeError)
  | Some item :: rest =>
      let '(ws, o) := orderUpdates (S index) rest in
      (SetOrder (Day.id item) (Z.of_nat index) :: ws, o)
  end.

(** Lines 116-118: the reordered copy of one day's activities. *)
Definition reorderedActivities (activities : list Activity.t) (sourceIndex destIndex : Z)
  : list (option Activity.t) :=
  JsArray.reorder (JsArray.from activities) sourceIndex destIndex.

(** Lines 134-138: the source and destination arrays after an activity
    moved from one day to another. *)
Definition movedActivities (sourceDayActivities destDayActivities : list Activity.t)
    (sourceIndex destIndex : Z)
  : list (option Activity.t) * list (option Activity.t) :=
  let sourceActivities := JsArray.from sourceDayActivities in
  let destActivities := JsArray.from destDayActivities in
  let '(removedList, sourceActivities1) := JsArray.splice sourceActivities sourceIndex 1 [] in
  let movedActivity := JsArray.destructure_first removedList in
  let '(_, destActivities1) := JsArray.splice destActivities destIndex 0 [movedActivity] in
  (sourceActivities1, destActivities1).

(** [itineraries.find(item => item.id === dayId)]. *)
Definition findDay (itineraries : list Day.t) (dayId : string) : option Day.t :=
  List.find (fun item => bool_decide (Day.id item = dayId)) itineraries.

(** [handleDragEnd]: the Firestore writes it issues, in order, and how it
    ends. The writes themselves are awaited inside [try]/[catch], so their
    failure never escapes the handler. *)
Definition handleDragEnd (itineraries : list Day.t) (result : DropResult)
  : list write * outcome :=
  match destination result with
  | None => ([], Returned)
  | Some dest =>
      let src := source result in
      if bool_decide (type result = "day") then
        orderUpdates 0 (reorderedItineraries itineraries (index src) (index dest))
      else if bool_decide (type result = "activity") then
        let sourceDayId := droppableId src in
        let destDayId := droppableId dest in
        if bool_decide (sourceDayId = destDayId) then
          match findDay itineraries sourceDayId with
          | None => ([], Returned)
          | Some day =>
              match Day.activities day with
              | None => ([], Returned)
              | Some acts =>
                  ([SetActivities sourceDayId
                      (reorderedActivities acts (index src) (index dest))],
                   Returned)
              end
          end
        else
          match findDay itineraries sourceDayId, findDay itineraries destDayId with
          | Some sourceDay, Some destDay =>
              let '(sourceActivities, destActivities) :=
                movedActivities (default [] (Day.activities sourceDay))
                                (default [] (Day.activities destDay))
                                (index src) (index dest) in
              ([SetActivities sourceDayId sourceActivities;
                SetActivities destDayId destActivities],
               Returned)
          | _, _ => ([], Returned)
          end
      else ([], Returned)
  end.

(** The [itineraries] collection, keyed by document id, and the effect of
    a write on it. A write to a document that does not exist, or of an
    array that holds [undefined], is rejected by the store and changes
    nothing. *)
Definition applyWrite (store : gmap string Day.t) (w : write) : gmap string Day.t :=
  match w with
  | SetOrder docId index => alter (Day.set_order index) docId store
  | SetActivities docId acts =>
      match mapM (fun a : option Activity.t => a) acts with
      | Some acts' =>
          alter (fun d => Day.mk (Day.id d) (Day.tripId d) (Day.date d) (Day.title d)
                            (Day.description d) (Day.order d) (Some acts')) docId store
      | None => store
      end
  end.

Definition applyWrites (store : gmap string Day.t) (ws : list write) : gmap string Day.t :=
  foldl applyWrite store ws.

(** ** Aggregates *)

Module JsNum.
(** [x > y] and [x >= y] on numbers; both are false when an operand is
    [NaN]. *)
Definition gt (x y : float) : bool := PrimFloat.ltb y x.

(** [NaN] is the one number that is not equal to itself. *)
Definition isNaN (x : float) : bool := negb (PrimFloat.eqb x x).

(** [ToBoolean] of a number: [+0], [-0] and [NaN] are falsy. *)
Definition truthy (x : float) : bool := negb (isNaN x) && negb (PrimFloat.eqb x 0%float).

(** [x || 0] where [x] is a number. *)
Definition number_or_zero (x : float) : float := if truthy x then x else 0%float.

(** [x || 0] where [x] is a number or missing: [undefined] is falsy as
    well. *)
Definition or_zero (x : option float) : float :=
  match x with
  | Some q => number_or_zero q
  | None => 0%float
  end.

(** [Number(x)] on a number is that number. *)
Definition Number (x : float) : float := x.
End JsNum.

Module JsObject.
(** The property names every object literal inherits from
    [Object.prototype]: its methods, [constructor] and the accessor
    [__proto__]. *)
Definition prototypeMembers : list string :=
  ["constructor"; "__defineGetter__"; "__defineSetter__"; "hasOwnProperty";
   "__lookupGetter__"; "__lookupSetter__"; "isPrototypeOf";
   "propertyIsEnumerable"; "toString"; "valueOf"; "__proto__"; "toLocaleString"].

(** What a dictionary of counts holds under a key: a number or, once [+]
    has been applied to something that is no number, a (non-empty)
    string. *)
Inductive value :=
  | Num (n : nat)
  | Str.

(** What [o[key]] evaluates to: an own property, else the member of
    [Object.prototype] of that name (a function or an object), else
    [undefined]. *)
Inductive read :=
  | Undefined
  | Own (v : value)
  | Inherited.

Definition get (o : gmap string value) (key : string) : read :=
  match o !! key with
  | Some v => Own v
  | None => if bool_decide (key ∈ prototypeMembers) then Inherited else Undefined
  end.

(** [o[key] = v] for a number or string [v]: the setter of [__proto__]
    ignores a value that is neither an object nor [null]; under any other
    name the object gets or updates an own property. *)
Definition set (o : gmap string value) (key : string) (v : value) : gmap string value :=
  if bool_decide (key = "__proto__") then o else <[key := v]> o.

(** [(x || 0) + 1]: a number is incremented ([undefined] and 0 counting as
    0); on a string, a function or an object, [+] concatenates and gives a
    string. *)
Definition or_zero_plus_one (x : read) : value :=
  match x with
  | Undefined => Num 1
  | Own (Num n) => Num (n + 1)
  | Own Str => Str
  | Inherited => Str
  end.
End JsObject.

(** [day.activities || []]. *)
Definition activitiesOrEmpty (day : Day.t) : list Activity.t :=
  default [] (Day.activities day).

Module Helpers.
(** The inner [reduce] of [calculateTotalCost] and of [isOverBudget]. *)
Definition dayCost (day : Day.t) : float :=
  fold_left (fun sum activity =>
               (sum + JsNum.Number (JsNum.or_zero (Activity.cost activity)))%float)
            (activitiesOrEmpty day) 0%float.

(** helpers.js, [calculateTotalCost]. *)
Definition calculateTotalCost (itineraries : list Day.t) : float :=
  fold_left (fun total day => (total + dayCost day)%float) itineraries 0%float.

(** helpers.js, [isOverBudget]. *)
Definition isOverBudget (day : Day.t) (dailyBudget : float) : bool :=
  JsNum.gt (dayCost day) dailyBudget.
End Helpers.

Module BudgetPage.

(** [getTotalCost] of the budget page delegates to the helper. *)
Definition getTotalCost (itineraries : list Day.t) : float :=
  Helpers.calculateTotalCost itineraries.

(** [budget - totalCost], as computed in [getBudgetStatus] and
    [getBudgetAlerts] and shown as "Remaining". *)
Definition remaining (budget : float) (itineraries : list Day.t) : float :=
  (budget - getTotalCost itineraries)%float.


End BudgetPage.

Module ItineraryViewPage.
(** ItineraryViewPage.jsx, [getTotalCost]. *)
Definition getTotalCost (itineraries : list Day.t) : float :=
  fold_left
    (fun total day =>
       (total + fold_left (fun dayTotal activity =>
                             (dayTotal + JsNum.or_zero (Activity.cost activity))%float)
                          (activitiesOrEmpty day) 0%float)%float)
    itineraries 0%float.

(** ItineraryViewPage.jsx, [getActivityCount]. *)
Definition getActivityCount (itineraries : list Day.t) : nat :=
  fold_left (fun total day => (total + length (activitiesOrEmpty day))%nat)
            itineraries 0%nat.

(** [activity.category || 'activity']: a missing or empty category is
    falsy. *)
Definition categoryOrDefault (activity : Activity.t) : string :=
  match Activity.category activity with
  | Some c => if bool_decide (c = EmptyString) then "activity" else c
  | None => "activity"
  end.

(** [categories[category] = (categories[category] || 0) + 1]. *)
Definition countCategory (categories : gmap string JsObject.value) (activity : Activity.t)
  : gmap string JsObject.value :=
  let category := categoryOrDefault activity in
  JsObject.set categories category
    (JsObject.or_zero_plus_one (JsObject.get categories category)).

(** ItineraryViewPage.jsx, [getCategoryBreakdown]: the object
    [categories], built from [{}]. *)
Definition getCategoryBreakdown (itineraries : list Day.t) : gmap string JsObject.value :=
  fold_left (fun categories day => fold_left countCategory (activitiesOrEmpty day) categories)
            itineraries ∅.
End ItineraryViewPage.

(** ** The specification's wording of the aggregates *)

Module Spec.
(** The real number a double stands for, if it is finite. *)
Definition exact (x : float) : option Q :=
  match Prim2SF x with
  | S754_zero _ => Some 0%Q
  | S754_finite negative m e =>
      Some ((if negative then -1 else 1) * (Z.pos m # 1) * Qpower 2 e)%Q
  | S754_infinity _ | S754_nan => None
  end.

(** The real sum of a list of reals. *)
Definition exactSum (xs : list Q) : Q := fold_right Qplus 0%Q xs.

(** The sum of a list of amounts as double-precision addition gives it:
    the amounts are added one after the other, from 0, and every addition
    rounds. *)
Definition sum (xs : list float) : float := fold_left PrimFloat.add xs 0%float.

(** The cost of an activity, a missing cost being 0; so is a cost that is
    0, -0 or [NaN]. *)
Definition activityCost (a : Activity.t) : float :=
  match Activity.cost a with
  | Some c => if PrimFloat.eqb c c && negb (PrimFloat.eqb c 0%float) then c else 0%float
  | None => 0%float
  end.

(** The activities of a day, none when the list is missing. *)
Definition dayActivities (d : Day.t) : list Activity.t :=
  match Day.activities d with
  | Some acts => acts
  | None => []
  end.

(** Sum over the activities of a day of their cost. *)
Definition dayTotal (d : Day.t) : float := sum (activityCost <$> dayActivities d).

(** Sum over all days of the sum over all activities of [cost]. *)
Definition totalCost (days : list Day.t) : float := sum (dayTotal <$> days).

(** The cost of a day and of a trip as real numbers: the sum over the days
    of the sum over the day's activities of their cost, a missing cost
    being 0. There is none when a cost is not finite. *)
Definition exactDayTotal (d : Day.t) : option Q :=
  exactSum <$> mapM (fun a => exact (activityCost a)) (dayActivities d).

Definition exactTotalCost (days : list Day.t) : option Q :=
  exactSum <$> mapM exactDayTotal days.

(** All activities of a trip, day after day. *)
Definition allActivities (days : list Day.t) : list Activity.t :=
  days ≫= dayActivities.

(** Sum over all days of the length of the activity list. *)
Definition activityCount (days : list Day.t) : nat :=
  sum_list (length <$> (dayActivities <$> days)).

(** The category an activity is counted under. *)
Definition categoryLabel (defaultLabel : string) (a : Activity.t) : string :=
  match Activity.category a with
  | Some c => if bool_decide (c = EmptyString) then defaultLabel else c
  | None => defaultLabel
  end.

(** The number of activities of a list that are counted under [c]. *)
Definition countLabel (defaultLabel c : string) (acts : list Activity.t) : nat :=
  length (filter (fun a => categoryLabel defaultLabel a = c) acts).

(** The number of activities of a trip that are counted under [c]. *)
Definition categoryCount (defaultLabel : string) (days : list Day.t) (c : string) : nat :=
  countLabel defaultLabel c (allActivities days).

(** A mapping from category name to count, with one more activity counted
    under its label. *)
Definition tally (defaultLabel : string) (m : gmap string nat) (a : Activity.t)
  : gmap string nat :=
  let c := categoryLabel defaultLabel a in
  <[c := (default 0%nat (m !! c) + 1)%nat]> m.

(** The sum of the counts a mapping from category name to count holds. *)
Definition totalOfCounts (m : gmap string nat) : nat :=
  map_fold (fun _ n acc => (n + acc)%nat) 0%nat m.

(** The sum of the numbers a breakdown holds. *)
Definition totalOfNumbers (m : gmap string JsObject.value) : nat :=
  map_fold (fun _ v acc => match v with
                           | JsObject.Num n => (n + acc)%nat
                           | JsObject.Str => acc
                           end) 0%nat m.

(** Removal of position [i] and insertion before position [j]. *)
Definition removeAt {A} (i : nat) (xs : list A) : list A := take i xs ++ drop (S i) xs.
Definition insertAt {A} (j : nat) (x : A) (xs : list A) : list A :=
  take j xs ++ x :: drop j xs.
End Spec.

(** The [order] value a write carries, if it is a write of [order]. *)
Definition writtenOrder (w : write) : option Z :=
  match w with
  | SetOrder _ index => Some index
  | SetActivities _ _ => None
  end.

(** The write of position [i] as [order] of the document of [item]. *)
Definition orderWrite (rank : nat -> Z) (i : nat) (item : Day.t) : write :=
  SetOrder (Day.id item) (rank i).

(** ** Sample data *)

Module Sample.
Definition activity (id : string) (cost : option float) (category : option string)
  : Activity.t :=
  Activity.mk id id EmptyString EmptyString "09:00" EmptyString cost category.

Definition X := activity "X" (Some 10%float) (Some "food").
Definition Y := activity "Y" (Some 25%float) (Some "activity").
Definition Z' := activity "Z" None None.
Definition P := activity "P" (Some 2.5%float) (Some EmptyString).
Definition Q' := activity "Q" (Some 0%float) (Some "transport").

Definition D1 := Day.mk "d1" "t" "2024-05-01" "D1" EmptyString 0 (Some [X; Y]).
Definition D2 := Day.mk "d2" "t" "2024-05-02" "D2" EmptyString 1 (Some [P; Q']).
Definition D3 := Day.mk "d3" "t" "2024-05-03" "D3" EmptyString 2 None.

Definition days : list Day.t := [D1; D2; D3].

(** A day with activities filed under names that [Object.prototype] has. *)
Definition R := activity "R" (Some 5%float) (Some "__proto__").
Definition S' := activity "S" None (Some "constructor").
Definition D4 := Day.mk "d4" "t" "2024-05-04" "D4" EmptyString 3 (Some [R; S'; X; S']).

(** Two days whose costs are not sums of few binary digits. *)
Definition A1 := activity "A1" (Some 0.1%float) (Some "food").
Definition A2 := activity "A2" (Some 0.2%float) (Some "food").
Definition A3 := activity "A3" (Some 0.3%float) (Some "food").
Definition D5 := Day.mk "d5" "t" "2024-05-05" "D5" EmptyString 0 (Some [A1; A2]).
Definition D6 := Day.mk "d6" "t" "2024-05-06" "D6" EmptyString 1 (Some [A3]).

(** A day whose activities have the given costs, in that order. *)
Definition priced (costs : list float) : Day.t :=
  Day.mk "p" "t" "2024-05-01" "P" EmptyString 0
         (Some ((fun cost => activity "a" (Some cost) None) <$> costs)).

Definition store : gmap string Day.t :=
  <["d1" := D1]> (<["d2" := D2]> (<["d3" := D3]> ∅)).

Definition drop (kind from to : string) (s d : Z) : DropResult :=
  {| source := {| droppableId := from; index := s |};
     destination := Some {| droppableId := to; index := d |};
     type := kind |}.
End Sample.

(** ** The other handlers of the itinerary builder *)

(** The document a write goes to. *)
Definition writeDocId (w : write) : string :=
  match w with
  | SetOrder docId _ => docId
  | SetActivities docId _ => docId
  end.

(** [!s] for a string: only the empty string is falsy. *)
Definition isEmptyString (s : string) : bool := bool_decide (s = EmptyString).

Module NewActivity.
(** The state of the "add activity" form; [cost] is the text typed. *)
Record t := mk {
  name : string;
  description : string;
  location : string;
  startTime : string;
  endTime : string;
  cost : string;
  category : string
}.
End NewActivity.

Module NewDay.
(** The state of the "add day" form. *)
Record t := mk {
  date : string;
  title : string;
  description : string
}.
End NewDay.

Module DayData.
(** The document [addNewDay] hands to [addDoc]; the store chooses its id. *)
Record t := mk {
  tripId : string;
  date : string;
  title : string;
  description : string;
  activities : list Activity.t;
  order : Z;
  createdAt : string
}.

End DayData.

Module ActivityUpdates.
(** The object handed to [updateActivity]: the properties it sets. *)
Record t := mk {
  name : option string;
  description : option string;
  location : option string;
  startTime : option string;
  endTime : option string;
  cost : option float;
  category : option string
}.
End ActivityUpdates.

(** What one of these handlers does: nothing (an early [return]), one
    [updateDoc], one [addDoc], or an exception caught by its [catch] and
    shown through [setError] with the given prefix. *)
Inductive reply :=
  | Skipped
  | Updated (w : write)
  | Added (dayData : DayData.t)
  | Failed (messagePrefix : string).

Module Builder.
Section Handlers.
(** [parseFloat] on the text of the cost input; it gives [NaN] for a text
    that does not start with a number. *)
Variable parseFloat : string -> float.

(** Lines 156-176, [addNewDay]; [now] is [new Date().toISOString()]. *)
Definition addNewDay (tripId : string) (itineraries : list Day.t)
    (newDay : NewDay.t) (now : string) : reply :=
  if isEmptyString (NewDay.date newDay) || isEmptyString (NewDay.title newDay)
  then Skipped
  else Added (DayData.mk tripId (NewDay.date newDay) (NewDay.title newDay)
                (NewDay.description newDay) [] (Z.of_nat (length itineraries)) now).

(** [{ id: generateId(), ...newActivity, cost: parseFloat(newActivity.cost) || 0 }]. *)
Definition activityData (generatedId : string) (newActivity : NewActivity.t)
  : Activity.t :=
  Activity.mk generatedId
    (NewActivity.name newActivity) (NewActivity.description newActivity)
    (NewActivity.location newActivity) (NewActivity.startTime newActivity)
    (NewActivity.endTime newActivity)
    (Some (JsNum.number_or_zero (parseFloat (NewActivity.cost newActivity))))
    (Some (NewActivity.category newActivity)).

(** Lines 178-210, [addNewActivity]; [generatedId] is what [generateId()]
    returns. *)
Definition addNewActivity (itineraries : list Day.t) (newActivity : NewActivity.t)
    (generatedId : string) (dayId : string) : reply :=
  if isEmptyString (NewActivity.name newActivity)
     || isEmptyString (NewActivity.startTime newActivity)
  then Skipped
  else
    match findDay itineraries dayId with
    | None => Skipped
    | Some day =>
        let updatedActivities :=
          activitiesOrEmpty day ++ [activityData generatedId newActivity] in
        Updated (SetActivities dayId (Some <$> updatedActivities))
    end.
End Handlers.

(** [{ ...activity, ...updates }]. *)
Definition merge (activity : Activity.t) (updates : ActivityUpdates.t) : Activity.t :=
  Activity.mk (Activity.id activity)
    (default (Activity.name activity) (ActivityUpdates.name updates))
    (default (Activity.description activity) (ActivityUpdates.description updates))
    (default (Activity.location activity) (ActivityUpdates.location updates))
    (default (Activity.startTime activity) (ActivityUpdates.startTime updates))
    (default (Activity.endTime activity) (ActivityUpdates.endTime updates))
    (match ActivityUpdates.cost updates with
     | Some c => Some c
     | None => Activity.cost activity
     end)
    (match ActivityUpdates.category updates with
     | Some c => Some c
     | None => Activity.category activity
     end).

(** The [map] of [updateActivity]. *)
Definition updatedActivities (activities : list Activity.t) (activityId : string)
    (updates : ActivityUpdates.t) : list Activity.t :=
  List.map (fun activity =>
              if bool_decide (Activity.id activity = activityId)
              then merge activity updates else activity)
           activities.

(** Lines 212-229, [updateActivity]. [day.activities.map] throws inside
    the [try] when the day has no [activities]. *)
Definition updateActivity (itineraries : list Day.t) (dayId activityId : string)
    (updates : ActivityUpdates.t) : reply :=
  match findDay itineraries dayId with
  | None => Skipped
  | Some day =>
      match Day.activities day with
      | None => Failed "Error updating activity: "
      | Some activities =>
          Updated (SetActivities dayId
                     (Some <$> updatedActivities activities activityId updates))
      end
  end.

(** The [filter] of [deleteActivity]. *)
Definition remainingActivities (activities : list Activity.t) (activityId : string)
  : list Activity.t :=
  List.filter (fun activity => negb (bool_decide (Activity.id activity = activityId)))
              activities.

(** Lines 231-246, [deleteActivity]. [day.activities.filter] throws inside
    the [try] when the day has no [activities]. *)
Definition deleteActivity (itineraries : list Day.t) (dayId activityId : string)
  : reply :=
  match findDay itineraries dayId with
  | None => Skipped
  | Some day =>
      match Day.activities day with
      | None => Failed "Error deleting activity: "
      | Some activities =>
          Updated (SetActivities dayId
                     (Some <$> remainingActivities activities activityId))
      end
  end.
End Builder.

(** The activities a reply leaves the written day with, if it wrote any. *)
Definition writtenActivities (r : reply) : option (list (option Activity.t)) :=
  match r with
  | Updated (SetActivities _ activities) => Some activities
  | _ => None
  end.

(** A day document after [updateDoc(.., { activities })]. *)
Definition withActivities (activities : list Activity.t) (day : Day.t) : Day.t :=
  Day.mk (Day.id day) (Day.tripId day) (Day.date day) (Day.title day)
         (Day.description day) (Day.order day) (Some activities).

(** A stand-in for [parseFloat] on the texts used in the examples. *)
Definition sampleParseFloat (text : string) : float :=
  if bool_decide (text = "12.5") then 12.5%float
  else if bool_decide (text = "40") then 40%float
  else PrimFloat.nan.

(** A filled-in "add activity" form and a filled-in "add day" form. *)
Definition sampleNewActivity : NewActivity.t :=
  NewActivity.mk "Museum" EmptyString "Louvre" "10:00" "12:00" "12.5" "activity".

Definition sampleNewDay : NewDay.t :=
  NewDay.mk "2024-05-04" "D4" EmptyString.

(** A loaded day as the store has it once a write of [activities] to the
    document [docId] is applied. *)
Definition afterActivitiesWrite (docId : string) (activities : list Activity.t)
    (day : Day.t) : Day.t :=
  if bool_decide (Day.id day = docId) then withActivities activities day else day.

(** ** Drops, as the drag-and-drop library reports them *)

(** A day dragged from position [s] and released at position [d]. *)
Definition dayDrop (fromId toId : string) (s d : Z) : DropResult :=
  {| source := {| droppableId := fromId; index := s |};
     destination := Some {| droppableId := toId; index := d |};
     type := "day" |}.

(** An activity dragged from position [s] of the day [fromId] and released
    at position [d] of the day [toId]. *)
Definition activityDrop (fromId toId : string) (s d : Z) : DropResult :=
  {| source := {| droppableId := fromId; index := s |};
     destination := Some {| droppableId := toId; index := d |};
     type := "activity" |}.

(** ** More of the number operations *)

Module JsNumber.
(** [x < y]; false when an operand is [NaN]. *)
Definition lt (x y : float) : bool := PrimFloat.ltb x y.

(** [x > y] where [x] may be [undefined]: the comparison is then false. *)
Definition undefined_gt (x : option float) (y : float) : bool :=
  match x with
  | Some q => JsNum.gt q y
  | None => false
  end.
End JsNumber.

(** ** The derived views of the budget page *)

Module DailyCost.
Record t := mk {
  day : string;
  date : string;
  cost : float;
  activities : nat
}.
End DailyCost.

Module Alert.
Record t := mk {
  type : string;
  message : string;
  icon : string
}.
End Alert.

Module BudgetViews.
Section Views.
(** [formatDate] and [formatCurrency] of helpers.js, which delegate to
    date-fns and [Intl]; [toFixed1] is [x.toFixed(1)]. *)
Variable formatDate : string -> string.
Variable formatCurrency : float -> string.
Variable toFixed1 : float -> string.

(** BudgetPage.jsx, [getDailyCosts]. *)
Definition getDailyCosts (itineraries : list Day.t) : list DailyCost.t :=
  List.map
    (fun day =>
       DailyCost.mk
         (Day.title day)
         (formatDate (Day.date day))
         (fold_left (fun total activity =>
                       (total + JsNum.or_zero (Activity.cost activity))%float)
                    (activitiesOrEmpty day) 0%float)
         (match Day.activities day with
          | Some activities => length activities
          | None => 0%nat
          end))
    itineraries.

(** The alert about the budget as a whole, if any. *)
Definition budgetAlert (budget totalCost : float) : list Alert.t :=
  let remaining := (budget - totalCost)%float in
  if JsNum.gt budget 0%float then
    if JsNumber.lt remaining 0%float then
      [Alert.mk "error"
         ("You're " ++ formatCurrency (PrimFloat.abs remaining) ++ " over budget!")
         "⚠️"]
    else if JsNumber.lt remaining (budget * 0.1)%float then
      [Alert.mk "warning"
         ("Only " ++ formatCurrency remaining ++ " remaining in your budget")
         "⚠️"]
    else []
  else [].

(** The alert about one activity, if it costs more than [budget * 0.2]. *)
Definition activityAlert (budget : float) (activity : Activity.t) : list Alert.t :=
  if JsNumber.undefined_gt (Activity.cost activity) (budget * 0.2)%float
     && JsNum.gt budget 0%float
  then
    let cost := default 0%float (Activity.cost activity) in
    [Alert.mk "info"
       (Activity.name activity ++ " costs " ++ formatCurrency cost ++ " ("
        ++ toFixed1 (cost / budget * 100)%float ++ "% of budget)")
       "💡"]
  else [].

(** BudgetPage.jsx, [getBudgetAlerts]. *)
Definition getBudgetAlerts (budget : float) (itineraries : list Day.t) : list Alert.t :=
  budgetAlert budget (BudgetPage.getTotalCost itineraries)
  ++ (itineraries ≫= fun day => activitiesOrEmpty day ≫= activityAlert budget).
End Views.
End BudgetViews.

(** ** Recent searches *)

Module Search.
Record t := mk {
  query : string;
  type : string;
  timestamp : Z
}.
End Search.

(** PublicItineraryPage.jsx, [saveSearch]: the list kept in the state and
    in [localStorage]; [now] is [Date.now()]. *)
Definition saveSearch (recentSearches : list Search.t) (query type : string) (now : Z)
  : list Search.t :=
  let newSearch := Search.mk query type now in
  take 10 (newSearch
           :: List.filter (fun s => negb (bool_decide (Search.query s = query)))
                          recentSearches).

(** ** Date ranges *)

Module DateRange.
Section Range.
(** A [Date] is its time value, the milliseconds since the epoch, which is
    what [<=] compares. [addDays] is the function of date-fns. *)
Variable addDays : Z -> Z -> Z.

(** The [while] loop of [getDateRangeInclusive]; [None] when the fuel runs
    out before the loop ends. *)
Fixpoint loop (fuel : nat) (curr end_ : Z) (days : list Z) : option (list Z) :=
  match fuel with
  | O => None
  | S fuel' =>
      if curr <=? end_
      then loop fuel' (addDays curr 1) end_ (days ++ [curr])
      else Some days
  end.

(** helpers.js, [getDateRangeInclusive]. *)
Definition getDateRangeInclusive (fuel : nat) (start end_ : Z) : option (list Z) :=
  loop fuel start end_ [].

(** The dates from [curr] on, day after day, up to [end_]. *)
Record rangeFrom (curr end_ : Z) (days : list Z) : Prop := {
  range_empty : days = [] <-> end_ < curr;
  range_head : curr <= end_ -> head days = Some curr;
  range_bounds : Forall (fun t => curr <= t <= end_) days;
  range_steps : forall i t t', days !! i = Some t -> days !! S i = Some t' ->
                               t' = addDays t 1;
  range_last : forall t, last days = Some t -> end_ < addDays t 1
}.
End Range.

(** One day in milliseconds, and [addDays] where no clock change falls
    into the range. *)
Definition msPerDay : Z := 86400000.
Definition addDaysUTC (date amount : Z) : Z := date + amount * msPerDay.
End DateRange.

(** ** Regular expressions and the check of an e-mail address *)

Module Regex.
(** A string is a sequence of UTF-16 code units, which is what a regular
    expression without the [u] flag matches on. *)
Inductive t :=
  | Never
  | Epsilon
  | Class (accepts : N -> bool)
  | Alt (r1 r2 : t)
  | Seq (r1 r2 : t)
  | Star (r : t)
  | Plus (r : t).

(** The strings a regular expression matches as a whole. *)
Inductive lang : t -> list N -> Prop :=
  | lang_epsilon : lang Epsilon []
  | lang_class accepts c : accepts c = true -> lang (Class accepts) [c]
  | lang_alt_l r1 r2 s : lang r1 s -> lang (Alt r1 r2) s
  | lang_alt_r r1 r2 s : lang r2 s -> lang (Alt r1 r2) s
  | lang_seq r1 r2 s1 s2 : lang r1 s1 -> lang r2 s2 -> lang (Seq r1 r2) (s1 ++ s2)
  | lang_star_nil r : lang (Star r) []
  | lang_star_more r s1 s2 : lang r s1 -> lang (Star r) s2 -> lang (Star r) (s1 ++ s2)
  | lang_plus r s1 s2 : lang r s1 -> lang (Star r) s2 -> lang (Plus r) (s1 ++ s2).

(** Whether the empty string is matched. *)
Fixpoint nullable (r : t) : bool :=
  match r with
  | Never => false
  | Epsilon => true
  | Class _ => false
  | Alt r1 r2 => nullable r1 || nullable r2
  | Seq r1 r2 => nullable r1 && nullable r2
  | Star _ => true
  | Plus r => nullable r
  end.

(** What is left to match after the code unit [c]. *)
Fixpoint derivative (c : N) (r : t) : t :=
  match r with
  | Never => Never
  | Epsilon => Never
  | Class accepts => if accepts c then Epsilon else Never
  | Alt r1 r2 => Alt (derivative c r1) (derivative c r2)
  | Seq r1 r2 =>
      if nullable r1
      then Alt (Seq (derivative c r1) r2) (derivative c r2)
      else Seq (derivative c r1) r2
  | Star r => Seq (derivative c r) (Star r)
  | Plus r => Seq (derivative c r) (Star r)
  end.

(** [/^r$/.test(s)]. *)
Definition test (r : t) (s : list N) : bool :=
  nullable (fold_left (fun r c => derivative c r) s r).
End Regex.

Module Email.
(** The class [\s]: white space and line terminators. *)
Definition isSpace (c : N) : bool :=
  ((9 <=? c) && (c <=? 13) || (c =? 32) || (c =? 160) || (c =? 5760)
   || (8192 <=? c) && (c <=? 8202) || (c =? 8232) || (c =? 8233)
   || (c =? 8239) || (c =? 8287) || (c =? 12288) || (c =? 65279))%N.

Definition at_sign : N := 64%N.
Definition dot : N := 46%N.

(** The class [[^\s@]]. *)
Definition notSpaceNorAt (c : N) : bool := negb (isSpace c) && negb (c =? at_sign)%N.

(** [/^[^\s@]+@[^\s@]+\.[^\s@]+$/]. *)
Definition emailRegex : Regex.t :=
  Regex.Seq (Regex.Plus (Regex.Class notSpaceNorAt))
    (Regex.Seq (Regex.Class (fun c => c =? at_sign)%N)
       (Regex.Seq (Regex.Plus (Regex.Class notSpaceNorAt))
          (Regex.Seq (Regex.Class (fun c => c =? dot)%N)
             (Regex.Plus (Regex.Class notSpaceNorAt))))).

(** helpers.js, [isValidEmail]. *)
Definition isValidEmail (email : list N) : bool := Regex.test emailRegex email.

(** The code units of an ASCII text. *)
Definition ofAscii (text : string) : list N :=
  (fun a => Ascii.N_of_ascii a) <$> String.list_ascii_of_string text.
End Email.

(** ** Removal and insertion by position *)

Section Positions.
Context {A : Type}.
Implicit Types (xs : list A) (x : A) (i j : nat).

Lemma removeAt_length xs i :
  (i < length xs)%nat -> length (Spec.removeAt i xs) = (length xs - 1)%nat.
Proof.
  intros Hi. unfold Spec.removeAt.
  rewrite length_app, length_take, length_drop. lia.
Qed.

Lemma insertAt_length xs x j :
  length (Spec.insertAt j x xs) = S (length xs).
Proof.
  unfold Spec.insertAt. rewrite length_app. cbn [length].
  rewrite length_take, length_drop. lia.
Qed.

Lemma insertAt_lookup xs x j :
  (j <= length xs)%nat -> Spec.insertAt j x xs !! j = Some x.
Proof.
  intros Hj. unfold Spec.insertAt.
  rewrite lookup_app_r; rewrite length_take; [|lia].
  replace (j - j `min` length xs)%nat with 0%nat by lia. reflexivity.
Qed.

Lemma removeAt_insertAt xs x j :
  (j <= length xs)%nat -> Spec.removeAt j (Spec.insertAt j x xs) = xs.
Proof.
  intros Hj. unfold Spec.removeAt, Spec.insertAt.
  assert (Hlen : length (take j xs) = j) by (rewrite length_take; lia).
  rewrite take_app_le, drop_app_ge by lia.
  rewrite Hlen, take_take.
  replace (j `min` j)%nat with j by lia.
  replace (S j - j)%nat with 1%nat by lia.
  cbn [drop]. rewrite drop_0. apply take_drop.
Qed.

Lemma insertAt_removeAt xs x i :
  xs !! i = Some x -> Spec.insertAt i x (Spec.removeAt i xs) = xs.
Proof.
  intros Hx. pose proof (lookup_lt_Some _ _ _ Hx) as Hi.
  unfold Spec.removeAt, Spec.insertAt.
  assert (Hlen : length (take i xs) = i) by (rewrite length_take; lia).
  rewrite take_app_le, drop_app_ge by lia.
  rewrite Hlen, take_take.
  replace (i `min` i)%nat with i by lia.
  replace (i - i)%nat with 0%nat by lia. rewrite drop_0.
  apply take_drop_middle, Hx.
Qed.

Lemma removeAt_perm xs x i :
  xs !! i = Some x -> x :: Spec.removeAt i xs ≡ₚ xs.
Proof.
  intros Hx. unfold Spec.removeAt.
  rewrite <- (take_drop_middle xs i x Hx) at 3.
  apply Permutation_middle.
Qed.

Lemma insertAt_perm xs x j : Spec.insertAt j x xs ≡ₚ x :: xs.
Proof.
  unfold Spec.insertAt. rewrite <- Permutation_middle.
  by rewrite take_drop.
Qed.

Lemma fmap_removeAt {B} (f : A -> B) xs i :
  f <$> Spec.removeAt i xs = Spec.removeAt i (f <$> xs).
Proof. unfold Spec.removeAt. by rewrite fmap_app, fmap_take, fmap_drop. Qed.

Lemma fmap_insertAt {B} (f : A -> B) xs x j :
  f <$> Spec.insertAt j x xs = Spec.insertAt j (f x) (f <$> xs).
Proof.
  unfold Spec.insertAt. by rewrite fmap_app, fmap_cons, fmap_take, fmap_drop.
Qed.
End Positions.

(** ** What [splice] does *)

Section SpliceFacts.
Context {X : Type}.
Implicit Types (arr items : list X).

Lemma relativeStart_in_range (len : nat) (start : Z) :
  0 <= start <= Z.of_nat len -> JsArray.relativeStart len start = Z.to_nat start.
Proof.
  intros H. unfold JsArray.relativeStart.
  destruct (Z.ltb_spec start 0); lia.
Qed.

Lemma relativeStart_beyond (len : nat) (start : Z) :
  Z.of_nat len <= start -> JsArray.relativeStart len start = len.
Proof.
  intros H. unfold JsArray.relativeStart.
  destruct (Z.ltb_spec start 0); lia.
Qed.

Lemma relativeStart_le (len : nat) (start : Z) :
  (JsArray.relativeStart len start <= len)%nat.
Proof.
  unfold JsArray.relativeStart. destruct (Z.ltb_spec start 0); lia.
Qed.

(** Removing one element at a position that exists. *)
Lemma splice_remove_one arr (start : Z) (x : X) :
  0 <= start -> arr !! Z.to_nat start = Some x ->
  JsArray.splice arr start 1 [] = ([x], Spec.removeAt (Z.to_nat start) arr).
Proof.
  intros H0 Hx. pose proof (lookup_lt_Some _ _ _ Hx) as Hlt.
  unfold JsArray.splice, Spec.removeAt.
  rewrite relativeStart_in_range by lia.
  unfold JsArray.actualDeleteCount.
  replace (Z.to_nat (Z.min (Z.max 1 0) (Z.of_nat (length arr) - Z.of_nat (Z.to_nat start))))
    with 1%nat by lia.
  rewrite (drop_S arr x (Z.to_nat start) Hx). cbn [take app].
  rewrite take_0. f_equal. f_equal. f_equal. lia.
Qed.

(** Removing at or beyond the end removes nothing. *)
Lemma splice_remove_beyond arr (start : Z) :
  Z.of_nat (length arr) <= start ->
  JsArray.splice arr start 1 [] = ([], arr).
Proof.
  intros H. unfold JsArray.splice.
  rewrite relativeStart_beyond by lia.
  unfold JsArray.actualDeleteCount.
  replace (Z.to_nat (Z.min (Z.max 1 0) (Z.of_nat (length arr) - Z.of_nat (length arr))))
    with 0%nat by lia.
  rewrite Nat.add_0_r, !drop_all, firstn_all. cbn. by rewrite app_nil_r.
Qed.

(** Inserting one element at a position within the array or at its end. *)
Lemma splice_insert_one arr (start : Z) (x : X) :
  0 <= start <= Z.of_nat (length arr) ->
  JsArray.splice arr start 0 [x] = ([], Spec.insertAt (Z.to_nat start) x arr).
Proof.
  intros H. unfold JsArray.splice, Spec.insertAt.
  rewrite relativeStart_in_range by lia.
  unfold JsArray.actualDeleteCount.
  replace (Z.to_nat (Z.min (Z.max 0 0) (Z.of_nat (length arr) - Z.of_nat (Z.to_nat start))))
    with 0%nat by lia.
  by rewrite take_0, Nat.add_0_r.
Qed.

End SpliceFacts.

(** The in-place reorder, for indices within the array. *)
Lemma reorder_in_range {A} (arr : list (option A)) (s d : Z) (x : option A) :
  0 <= s -> arr !! Z.to_nat s = Some x -> 0 <= d < Z.of_nat (length arr) ->
  JsArray.reorder arr s d
  = Spec.insertAt (Z.to_nat d) x (Spec.removeAt (Z.to_nat s) arr).
Proof.
  intros Hs Hx Hd. pose proof (lookup_lt_Some _ _ _ Hx) as Hlt.
  unfold JsArray.reorder.
  rewrite (splice_remove_one arr s x Hs Hx). cbn [JsArray.destructure_first].
  rewrite splice_insert_one; [reflexivity|].
  rewrite removeAt_length by lia. lia.
Qed.

Lemma from_lookup {A} (xs : list A) (i : nat) (x : A) :
  xs !! i = Some x -> JsArray.from xs !! i = Some (Some x).
Proof. intros H. unfold JsArray.from. by rewrite list_lookup_fmap, H. Qed.

Lemma from_length {A} (xs : list A) : length (JsArray.from xs) = length xs.
Proof. apply length_fmap. Qed.

(** Reordering a copy of an array of objects, for indices within it. *)
Lemma reorder_from_in_range {A} (xs : list A) (s d : Z) (x : A) :
  0 <= s -> xs !! Z.to_nat s = Some x -> 0 <= d < Z.of_nat (length xs) ->
  JsArray.reorder (JsArray.from xs) s d
  = JsArray.from (Spec.insertAt (Z.to_nat d) x (Spec.removeAt (Z.to_nat s) xs)).
Proof.
  intros Hs Hx Hd.
  rewrite (reorder_in_range _ s d (Some x)); [| done | by apply from_lookup
                                              | by rewrite from_length].
  unfold JsArray.from. by rewrite fmap_insertAt, fmap_removeAt.
Qed.

(** ** The day reorder *)

Lemma reorderedItineraries_in_range (days : list Day.t) (s d : Z) (x : Day.t) :
  0 <= s -> days !! Z.to_nat s = Some x -> 0 <= d < Z.of_nat (length days) ->
  reorderedItineraries days s d
  = JsArray.from (Spec.insertAt (Z.to_nat d) x (Spec.removeAt (Z.to_nat s) days)).
Proof. unfold reorderedItineraries. apply reorder_from_in_range. Qed.

Lemma lookup_in_range {A} (xs : list A) (i : Z) :
  0 <= i < Z.of_nat (length xs) -> exists x, xs !! Z.to_nat i = Some x.
Proof.
  intros H. destruct (lookup_lt_is_Some_2 xs (Z.to_nat i)) as [x Hx]; [lia|].
  by exists x.
Qed.

(** C1. For indices within the list, the day reorder returns an array
    whose every slot holds a day and whose days are a permutation of the
    input: nothing is created, duplicated or lost. *)
Theorem moveDay_preserves_multiset (days : list Day.t) (sourceIndex destIndex : Z) :
  0 <= sourceIndex < Z.of_nat (length days) ->
  0 <= destIndex < Z.of_nat (length days) ->
  exists days',
    reorderedItineraries days sourceIndex destIndex = JsArray.from days'
    /\ days' ≡ₚ days.
Proof.
  intros Hs Hd. destruct (lookup_in_range days sourceIndex Hs) as [x Hx].
  eexists. split.
  - apply reorderedItineraries_in_range; [lia | exact Hx | exact Hd].
  - rewrite insertAt_perm. by apply removeAt_perm.
Qed.

Lemma moveDay_preserves_multiset_witness :
  exists days',
    reorderedItineraries Sample.days 2 0 = JsArray.from days'
    /\ days' ≡ₚ Sample.days.
Proof. apply moveDay_preserves_multiset; simpl; lia. Defined.

(** C4. A move whose source and destination index are the same index of
    the list changes nothing, for the day reorder and for the reposition of
    an activity inside its day. *)
Theorem move_to_same_index_is_identity
    (days : list Day.t) (activities : list Activity.t) (i j : Z) :
  0 <= i < Z.of_nat (length days) ->
  0 <= j < Z.of_nat (length activities) ->
  reorderedItineraries days i i = JsArray.from days
  /\ reorderedActivities activities j j = JsArray.from activities.
Proof.
  intros Hi Hj.
  destruct (lookup_in_range days i Hi) as [x Hx].
  destruct (lookup_in_range activities j Hj) as [a Ha].
  split.
  - rewrite (reorderedItineraries_in_range days i i x) by (done || lia).
    by rewrite insertAt_removeAt.
  - unfold reorderedActivities.
    rewrite (reorder_from_in_range activities j j a) by (done || lia).
    by rewrite insertAt_removeAt.
Qed.

Lemma move_to_same_index_is_identity_witness :
  reorderedItineraries Sample.days 1 1 = JsArray.from Sample.days
  /\ reorderedActivities [Sample.X; Sample.Y; Sample.Z'] 2 2
     = JsArray.from [Sample.X; Sample.Y; Sample.Z'].
Proof. apply move_to_same_index_is_identity; simpl; lia. Defined.

(** C5. Moving a day from [sourceIndex] to [destIndex] and then back from
    [destIndex] to [sourceIndex] gives the original sequence, element by
    element. *)
Theorem moveDay_round_trip (days : list Day.t) (sourceIndex destIndex : Z) :
  0 <= sourceIndex < Z.of_nat (length days) ->
  0 <= destIndex < Z.of_nat (length days) ->
  exists days',
    reorderedItineraries days sourceIndex destIndex = JsArray.from days'
    /\ reorderedItineraries days' destIndex sourceIndex = JsArray.from days.
Proof.
  intros Hs Hd. destruct (lookup_in_range days sourceIndex Hs) as [x Hx].
  pose proof (removeAt_length days (Z.to_nat sourceIndex) ltac:(lia)) as Hlen.
  eexists. split.
  - apply reorderedItineraries_in_range; [lia | exact Hx | exact Hd].
  - rewrite (reorderedItineraries_in_range _ destIndex sourceIndex x).
    + rewrite removeAt_insertAt by lia. by rewrite insertAt_removeAt.
    + lia.
    + apply insertAt_lookup. lia.
    + rewrite insertAt_length. lia.
Qed.

Lemma moveDay_round_trip_witness :
  exists days',
    reorderedItineraries Sample.days 0 2 = JsArray.from days'
    /\ reorderedItineraries days' 2 0 = JsArray.from Sample.days.
Proof. apply moveDay_round_trip; simpl; lia. Defined.

(** ** The rewritten [order] field *)

Lemma orderUpdates_from (xs : list Day.t) (k : nat) :
  orderUpdates k (JsArray.from xs)
  = (imap (orderWrite (fun i => Z.of_nat (k + i))) xs, Returned).
Proof.
  unfold JsArray.from.
  revert k. induction xs as [|x xs IH]; intros k; [reflexivity|].
  rewrite fmap_cons, imap_cons. cbn [orderUpdates]. rewrite (IH (S k)).
  unfold orderWrite at 2. rewrite Nat.add_0_r. f_equal. f_equal.
  apply imap_ext. intros i y _. unfold orderWrite, compose. f_equal. lia.
Qed.

Lemma writtenOrder_imap (rank : nat -> Z) (xs : list Day.t) :
  omap writtenOrder (imap (orderWrite rank) xs) = rank <$> seq 0 (length xs).
Proof.
  revert rank. induction xs as [|x xs IH]; intros rank; [reflexivity|].
  rewrite imap_cons. cbn [length seq]. rewrite fmap_cons.
  rewrite <- (fmap_S_seq 0), <- list_fmap_compose, <- (IH (rank ∘ S)).
  reflexivity.
Qed.

(** Writes of [order] leave the documents of other ids alone. *)
Lemma applyWrites_other (rank : nat -> Z) (xs : list Day.t)
    (store : gmap string Day.t) (key : string) :
  key ∉ Day.id <$> xs ->
  applyWrites store (imap (orderWrite rank) xs) !! key = store !! key.
Proof.
  revert rank store. induction xs as [|x xs IH]; intros rank store Hkey; [reflexivity|].
  rewrite imap_cons. cbn [applyWrites foldl].
  rewrite fmap_cons, not_elem_of_cons in Hkey. destruct Hkey as [Hne Hkey].
  change (foldl applyWrite ?st ?ws) with (applyWrites st ws).
  rewrite (IH (rank ∘ S)) by done.
  cbn [orderWrite applyWrite]. by rewrite lookup_alter_ne.
Qed.

(** With distinct document ids, the writes of [order] leave every
    document with its position as [order]. *)
Lemma applyWrites_orders (rank : nat -> Z) (xs : list Day.t)
    (store : gmap string Day.t) :
  NoDup (Day.id <$> xs) ->
  (forall x, x ∈ xs -> store !! Day.id x = Some x) ->
  forall i x, xs !! i = Some x ->
    applyWrites store (imap (orderWrite rank) xs) !! Day.id x
    = Some (Day.set_order (rank i) x).
Proof.
  revert rank store. induction xs as [|y xs IH]; intros rank store Hnd Hst i x Hx.
  { by rewrite lookup_nil in Hx. }
  rewrite fmap_cons, NoDup_cons in Hnd. destruct Hnd as [Hy Hnd].
  rewrite imap_cons. cbn [applyWrites foldl].
  change (foldl applyWrite ?st ?ws) with (applyWrites st ws).
  destruct i as [|i]; cbn in Hx.
  - injection Hx as ->.
    rewrite (applyWrites_other (rank ∘ S)) by done.
    cbn [orderWrite applyWrite]. rewrite lookup_alter_eq.
    by rewrite (Hst x) by apply list_elem_of_here.
  - apply (IH (rank ∘ S)); [done | | done].
    intros z Hz. cbn [orderWrite applyWrite].
    rewrite lookup_alter_ne.
    + apply Hst. by apply list_elem_of_further.
    + intros Heq. apply Hy. rewrite Heq. by apply list_elem_of_fmap_2.
Qed.

(** The reordered days are a rearrangement of the days. *)
Lemma reorderedItineraries_perm (days : list Day.t) (s d : Z) :
  0 <= s < Z.of_nat (length days) ->
  0 <= d < Z.of_nat (length days) ->
  exists days',
    reorderedItineraries days s d = JsArray.from days' /\ days' ≡ₚ days.
Proof.
  intros Hs Hd. destruct (lookup_in_range days s Hs) as [x Hx].
  eexists. split.
  - apply reorderedItineraries_in_range; [lia | exact Hx | exact Hd].
  - rewrite insertAt_perm. by apply removeAt_perm.
Qed.

(** C2. After a day reorder with indices within the list, the handler
    writes to the document of each element its zero-based position in the
    reordered sequence as [order]: the values written are exactly
    0, 1, .., n-1, hence dense and pairwise distinct, and, in a store that
    holds the days under their distinct document ids, every element ends
    up with its position as [order]. *)
Theorem moveDay_rewrites_order (days : list Day.t) (sourceIndex destIndex : Z) :
  0 <= sourceIndex < Z.of_nat (length days) ->
  0 <= destIndex < Z.of_nat (length days) ->
  exists days' updates,
    reorderedItineraries days sourceIndex destIndex = JsArray.from days'
    /\ handleDragEnd days
         {| source := {| droppableId := "days"; index := sourceIndex |};
            destination := Some {| droppableId := "days"; index := destIndex |};
            type := "day" |}
       = (updates, Returned)
    /\ updates = imap (orderWrite Z.of_nat) days'
    /\ omap writtenOrder updates = Z.of_nat <$> seq 0 (length days)
    /\ NoDup (omap writtenOrder updates)
    /\ forall store : gmap string Day.t,
         NoDup (Day.id <$> days) ->
         (forall day, day ∈ days -> store !! Day.id day = Some day) ->
         forall i item, days' !! i = Some item ->
           Day.order <$> (applyWrites store updates !! Day.id item) = Some (Z.of_nat i).
Proof.
  intros Hs Hd.
  destruct (reorderedItineraries_perm days sourceIndex destIndex Hs Hd)
    as (days' & Hre & Hperm).
  assert (Horders : omap writtenOrder (imap (orderWrite Z.of_nat) days')
                    = Z.of_nat <$> seq 0 (length days)).
  { rewrite writtenOrder_imap. by rewrite Hperm. }
  exists days', (imap (orderWrite Z.of_nat) days').
  split; [exact Hre|]. split.
  { unfold handleDragEnd. cbn [destination source type index].
    rewrite bool_decide_eq_true_2 by reflexivity.
    rewrite Hre. apply orderUpdates_from. }
  split; [reflexivity|]. split; [exact Horders|]. split.
  - rewrite Horders. apply NoDup_fmap_2; [intros x y; apply Nat2Z.inj | apply NoDup_seq].
  - intros store Hnd Hst i item Hitem.
    rewrite (applyWrites_orders Z.of_nat days' store) with (i := i); [reflexivity | | | done].
    + by rewrite Hperm.
    + intros x Hx. apply Hst. by rewrite <- Hperm.
Qed.

Lemma moveDay_rewrites_order_witness :
  exists days' updates,
    reorderedItineraries Sample.days 2 0 = JsArray.from days'
    /\ handleDragEnd Sample.days
         {| source := {| droppableId := "days"; index := 2 |};
            destination := Some {| droppableId := "days"; index := 0 |};
            type := "day" |}
       = (updates, Returned)
    /\ updates = imap (orderWrite Z.of_nat) days'
    /\ omap writtenOrder updates = Z.of_nat <$> seq 0 (length Sample.days)
    /\ NoDup (omap writtenOrder updates)
    /\ forall store : gmap string Day.t,
         NoDup (Day.id <$> Sample.days) ->
         (forall day, day ∈ Sample.days -> store !! Day.id day = Some day) ->
         forall i item, days' !! i = Some item ->
           Day.order <$> (applyWrites store updates !! Day.id item) = Some (Z.of_nat i).
Proof. apply moveDay_rewrites_order; simpl; lia. Defined.

(** The sample store holds the sample days under distinct ids, and after
    the day at index 2 is dropped at index 0 the stored orders are the new
    positions. *)
Example sample_store_orders :
  NoDup (Day.id <$> Sample.days)
  /\ (forall day, day ∈ Sample.days -> Sample.store !! Day.id day = Some day)
  /\ Day.order <$> (applyWrites Sample.store
                      [SetOrder "d3" 0; SetOrder "d1" 1; SetOrder "d2" 2] !! "d3")
     = Some 0.
Proof.
  split; [|split].
  - apply (bool_decide_eq_true_1 (NoDup (Day.id <$> Sample.days))).
    vm_compute. reflexivity.
  - intros day Hday.
    repeat (apply elem_of_cons in Hday as [-> | Hday]); try reflexivity.
    by apply elem_of_nil in Hday.
  - reflexivity.
Qed.

(** ** The move of an activity between two days *)

Lemma movedActivities_in_range (src dst : list Activity.t) (s d : Z) (moved : Activity.t) :
  0 <= s -> src !! Z.to_nat s = Some moved -> 0 <= d <= Z.of_nat (length dst) ->
  movedActivities src dst s d
  = (JsArray.from (Spec.removeAt (Z.to_nat s) src),
     JsArray.from (Spec.insertAt (Z.to_nat d) moved dst)).
Proof.
  intros Hs Hm Hd. unfold movedActivities.
  rewrite (splice_remove_one _ s (Some moved) Hs (from_lookup _ _ _ Hm)).
  cbn [JsArray.destructure_first].
  rewrite splice_insert_one by (rewrite from_length; lia).
  unfold JsArray.from. by rewrite fmap_insertAt, fmap_removeAt.
Qed.

(** C3. With [sourceIndex] a position of the source list and [destIndex] a
    position of the destination list or its end, the move between days
    takes the element at [sourceIndex] out of the source list, puts that
    very element at [destIndex] of the destination list, keeps all other
    elements of both lists in their order, and keeps the total number of
    elements. *)
Theorem moveActivity_between_days (src dst : list Activity.t) (sourceIndex destIndex : Z) :
  0 <= sourceIndex < Z.of_nat (length src) ->
  0 <= destIndex <= Z.of_nat (length dst) ->
  exists (moved : Activity.t) (src' dst' : list Activity.t),
    src !! Z.to_nat sourceIndex = Some moved
    /\ movedActivities src dst sourceIndex destIndex = (JsArray.from src', JsArray.from dst')
    /\ src' = take (Z.to_nat sourceIndex) src ++ drop (S (Z.to_nat sourceIndex)) src
    /\ dst' = take (Z.to_nat destIndex) dst ++ moved :: drop (Z.to_nat destIndex) dst
    /\ dst' !! Z.to_nat destIndex = Some moved
    /\ (length src' + length dst' = length src + length dst)%nat.
Proof.
  intros Hs Hd. destruct (lookup_in_range src sourceIndex Hs) as [moved Hm].
  exists moved, (Spec.removeAt (Z.to_nat sourceIndex) src),
         (Spec.insertAt (Z.to_nat destIndex) moved dst).
  split; [exact Hm|]. split; [apply movedActivities_in_range; (done || lia)|].
  split; [reflexivity|]. split; [reflexivity|].
  split; [apply insertAt_lookup; lia|].
  rewrite removeAt_length, insertAt_length; lia.
Qed.

Lemma moveActivity_between_days_witness :
  exists (moved : Activity.t) (src' dst' : list Activity.t),
    [Sample.X; Sample.Y] !! Z.to_nat 0 = Some moved
    /\ movedActivities [Sample.X; Sample.Y] [Sample.P; Sample.Q'] 0 1
       = (JsArray.from src', JsArray.from dst')
    /\ src' = take (Z.to_nat 0) [Sample.X; Sample.Y]
              ++ drop (S (Z.to_nat 0)) [Sample.X; Sample.Y]
    /\ dst' = take (Z.to_nat 1) [Sample.P; Sample.Q']
              ++ moved :: drop (Z.to_nat 1) [Sample.P; Sample.Q']
    /\ dst' !! Z.to_nat 1 = Some moved
    /\ (length src' + length dst'
        = length [Sample.X; Sample.Y] + length [Sample.P; Sample.Q'])%nat.
Proof. apply moveActivity_between_days; simpl; lia. Defined.

(** ** Indices out of range *)


(** A source index at or beyond the end of the source list takes nothing
    out, and [undefined] is put into the destination list. *)
Lemma movedActivities_source_beyond (src dst : list Activity.t) (s d : Z) :
  Z.of_nat (length src) <= s -> 0 <= d <= Z.of_nat (length dst) ->
  movedActivities src dst s d
  = (JsArray.from src, Spec.insertAt (Z.to_nat d) None (JsArray.from dst)).
Proof.
  intros Hs Hd. unfold movedActivities.
  rewrite splice_remove_beyond by (rewrite from_length; lia).
  cbn [JsArray.destructure_first].
  by rewrite splice_insert_one by (rewrite from_length; lia).
Qed.

(** A day reorder whose source index is at or beyond the end puts
    [undefined] among the days; reading its [id] throws. *)
Lemma orderUpdates_undefined (xs ys : list Day.t) (k : nat) :
  (orderUpdates k (JsArray.from xs ++ None :: JsArray.from ys)).2 = Threw_TypeError.
Proof.
  unfold JsArray.from. revert k.
  induction xs as [|x xs IH]; intros k; [reflexivity|].
  rewrite fmap_cons. cbn [app orderUpdates].
  specialize (IH (S k)). by destruct (orderUpdates _ _).
Qed.





(** ** Costs *)

(** Comparisons of doubles, read off their specification [SFcompare]. *)
Lemma SFcompare_antisym (a b : spec_float) :
  SFcompare b a = option_map CompOpp (SFcompare a b).
Proof.
  destruct a as [[]|[]| |[] m1 e1], b as [[]|[]| |[] m2 e2]; cbn; try reflexivity.
  all: rewrite (Z.compare_antisym e1 e2); destruct (e1 ?= e2)%Z; cbn; try reflexivity.
  all: rewrite ?CompOpp_involutive; f_equal.
  - symmetry. exact (Pos.compare_antisym m2 m1).
  - exact (Pos.compare_antisym m1 m2).
Qed.

Lemma eqb_not_ltb (x y : float) :
  PrimFloat.eqb x y = true -> PrimFloat.ltb y x = false.
Proof.
  rewrite FloatAxioms.eqb_spec, FloatAxioms.ltb_spec. unfold SFeqb, SFltb.
  rewrite (SFcompare_antisym (Prim2SF x) (Prim2SF y)).
  destruct (SFcompare (Prim2SF x) (Prim2SF y)) as [[]|]; cbn; congruence.
Qed.



(** [cost || 0] is the cost the specification counts. *)
Lemma or_zero_activityCost (a : Activity.t) :
  JsNum.or_zero (Activity.cost a) = Spec.activityCost a.
Proof.
  unfold JsNum.or_zero, Spec.activityCost, JsNum.number_or_zero, JsNum.truthy, JsNum.isNaN.
  destruct (Activity.cost a); [|reflexivity]. by rewrite negb_involutive.
Qed.



(** A left-to-right accumulation adds the values one after the other. *)
Lemma fold_left_add {A} (f g : A -> float) (xs : list A) (start : float) :
  (forall x, f x = g x) ->
  fold_left (fun acc x => (acc + f x)%float) xs start
  = fold_left PrimFloat.add (g <$> xs) start.
Proof.
  intros Hfg. revert start.
  induction xs as [|x xs IH]; intros start; [reflexivity|].
  rewrite fmap_cons. cbn [fold_left]. by rewrite IH, Hfg.
Qed.

Lemma activitiesOrEmpty_spec (day : Day.t) :
  activitiesOrEmpty day = Spec.dayActivities day.
Proof. unfold activitiesOrEmpty, Spec.dayActivities. by destruct (Day.activities day). Qed.

Lemma dayCost_spec (day : Day.t) : Helpers.dayCost day = Spec.dayTotal day.
Proof.
  unfold Helpers.dayCost, Spec.dayTotal, Spec.sum, JsNum.Number.
  rewrite (fold_left_add _ Spec.activityCost) by apply or_zero_activityCost.
  by rewrite activitiesOrEmpty_spec.
Qed.

Lemma calculateTotalCost_spec (days : list Day.t) :
  Helpers.calculateTotalCost days = Spec.totalCost days.
Proof.
  unfold Helpers.calculateTotalCost, Spec.totalCost, Spec.sum.
  apply fold_left_add, dayCost_spec.
Qed.

Lemma getTotalCost_spec (days : list Day.t) :
  ItineraryViewPage.getTotalCost days = Spec.totalCost days.
Proof.
  unfold ItineraryViewPage.getTotalCost, Spec.totalCost, Spec.sum.
  apply fold_left_add. intros day. unfold Spec.dayTotal, Spec.sum.
  rewrite (fold_left_add _ Spec.activityCost) by apply or_zero_activityCost.
  by rewrite activitiesOrEmpty_spec.
Qed.

(** C8, as the code has it. The total cost computed by
    [calculateTotalCost], and the one computed by the itinerary view, is
    the double-precision sum over the days, taken in order from 0, of the
    double-precision sum over the day's activities, taken in order from 0,
    of their cost; a missing cost (and a cost that is 0 or [NaN]) counts
    for 0 and a missing activity list for an empty one. Every addition
    rounds. *)
Theorem total_cost_is_sum_of_costs (days : list Day.t) :
  Helpers.calculateTotalCost days = Spec.totalCost days
  /\ ItineraryViewPage.getTotalCost days = Spec.totalCost days.
Proof. split; [apply calculateTotalCost_spec | apply getTotalCost_spec]. Qed.

(** C8, as the specification has it, fails: for a day with the costs 0.1
    and 0.2 the computed total (0.30000000000000004) is not the sum of the
    two costs, and the computed total depends on the order of the
    activities. *)
Lemma total_cost_is_rounded :
  (exists s t : Q,
     Spec.exactTotalCost [Sample.priced [0.1; 0.2]%float] = Some s
     /\ Spec.exact (Helpers.calculateTotalCost [Sample.priced [0.1; 0.2]%float]) = Some t
     /\ Spec.exact (ItineraryViewPage.getTotalCost [Sample.priced [0.1; 0.2]%float]) = Some t
     /\ (s < t)%Q)
  /\ Helpers.calculateTotalCost [Sample.priced [0.1; 0.2; 0.3]%float]
     = 0.6000000000000001%float
  /\ Helpers.calculateTotalCost [Sample.priced [0.3; 0.2; 0.1]%float]
     = 0.6%float
  /\ 0.6000000000000001%float <> 0.6%float.
Proof.
  split; [|split; [|split]].
  - eexists _, _. split; [vm_compute; reflexivity|].
    split; [vm_compute; reflexivity|]. split; [vm_compute; reflexivity|].
    vm_compute. reflexivity.
  - vm_compute. reflexivity.
  - vm_compute. reflexivity.
  - intros H. apply (f_equal Prim2SF) in H. vm_compute in H. discriminate.
Qed.

(** C10, as the code has it. [isOverBudget] holds exactly when the day's
    cost, summed in double precision, is strictly above the daily budget;
    a day whose computed cost equals the budget is not over budget. *)
Theorem isOverBudget_iff_strictly_above (day : Day.t) (dailyBudget : float) :
  (Helpers.isOverBudget day dailyBudget = true
   <-> PrimFloat.ltb dailyBudget (Spec.dayTotal day) = true)
  /\ (PrimFloat.eqb (Spec.dayTotal day) dailyBudget = true ->
      Helpers.isOverBudget day dailyBudget = false).
Proof.
  unfold Helpers.isOverBudget, JsNum.gt. rewrite dayCost_spec.
  split; [reflexivity | apply eqb_not_ltb].
Qed.

Lemma isOverBudget_iff_strictly_above_witness :
  Helpers.isOverBudget Sample.D1 35%float = false
  /\ (Helpers.isOverBudget Sample.D1 34%float = true
      <-> PrimFloat.ltb 34%float (Spec.dayTotal Sample.D1) = true).
Proof.
  split.
  - apply (proj2 (isOverBudget_iff_strictly_above Sample.D1 35%float)).
    vm_compute. reflexivity.
  - apply (proj1 (isOverBudget_iff_strictly_above Sample.D1 34%float)).
Defined.

(** C10, as the specification has it, fails in both directions. The costs
    5.78, 6.82 and 1.37 add up to exactly the budget 13.97, and the day is
    reported as over budget; the costs 2^53 and 1 add up to more than the
    budget 2^53, and the day is not reported. *)
Lemma isOverBudget_is_rounded :
  (exists s b : Q,
     Spec.exactDayTotal (Sample.priced [5.78; 6.82; 1.37]%float) = Some s
     /\ Spec.exact 13.97%float = Some b
     /\ (s == b)%Q
     /\ Helpers.isOverBudget (Sample.priced [5.78; 6.82; 1.37]%float) 13.97%float = true)
  /\ (exists s b : Q,
        Spec.exactDayTotal (Sample.priced [9007199254740992; 1]%float) = Some s
        /\ Spec.exact 9007199254740992%float = Some b
        /\ (b < s)%Q
        /\ Helpers.isOverBudget (Sample.priced [9007199254740992; 1]%float)
                                9007199254740992%float = false).
Proof.
  split; eexists _, _.
  - split; [vm_compute; reflexivity|]. split; [vm_compute; reflexivity|].
    split; vm_compute; reflexivity.
  - split; [vm_compute; reflexivity|]. split; [vm_compute; reflexivity|].
    split; vm_compute; reflexivity.
Qed.

(** ** Budget status *)




(** ** Counting activities *)

(** The breakdown visits the activities of the trip one after the other. *)
Lemma getCategoryBreakdown_flat (days : list Day.t)
    (categories : gmap string JsObject.value) :
  fold_left (fun cats day => fold_left ItineraryViewPage.countCategory
                               (activitiesOrEmpty day) cats) days categories
  = fold_left ItineraryViewPage.countCategory (Spec.allActivities days) categories.
Proof.
  unfold Spec.allActivities. revert categories.
  induction days as [|day days IH]; intros categories; [reflexivity|].
  rewrite bind_cons, fold_left_app. cbn [fold_left].
  by rewrite IH, activitiesOrEmpty_spec.
Qed.

Lemma getActivityCount_length (days : list Day.t) :
  ItineraryViewPage.getActivityCount days = length (Spec.allActivities days).
Proof.
  unfold ItineraryViewPage.getActivityCount, Spec.allActivities.
  assert (H : forall start,
             fold_left (fun total day => (total + length (activitiesOrEmpty day))%nat)
                       days start
             = (start + length (days ≫= Spec.dayActivities))%nat).
  { induction days as [|day days IH]; intros start; cbn [fold_left].
    - cbn. lia.
    - rewrite IH, bind_cons, length_app, activitiesOrEmpty_spec. lia. }
  by rewrite H.
Qed.

Lemma activityCount_length (days : list Day.t) :
  Spec.activityCount days = length (Spec.allActivities days).
Proof.
  unfold Spec.activityCount, Spec.allActivities.
  induction days as [|day days IH]; [reflexivity|].
  by rewrite bind_cons, length_app, <- IH.
Qed.

Section Counting.
Implicit Types (counts : gmap string nat) (categories : gmap string JsObject.value).
Implicit Types (acts : list Activity.t) (a : Activity.t) (c : string).

Lemma categoryOrDefault_spec a :
  ItineraryViewPage.categoryOrDefault a = Spec.categoryLabel "activity" a.
Proof. reflexivity. Qed.

Lemma countLabel_cons c a acts :
  Spec.countLabel "activity" c (a :: acts)
  = if decide (Spec.categoryLabel "activity" a = c)
    then S (Spec.countLabel "activity" c acts) else Spec.countLabel "activity" c acts.
Proof. unfold Spec.countLabel. rewrite filter_cons. by case_decide. Qed.

Lemma countLabel_snoc c a acts :
  Spec.countLabel "activity" c (acts ++ [a])
  = if decide (Spec.categoryLabel "activity" a = c)
    then S (Spec.countLabel "activity" c acts) else Spec.countLabel "activity" c acts.
Proof.
  unfold Spec.countLabel. rewrite filter_app, length_app, filter_cons, filter_nil.
  case_decide; cbn [length]; lia.
Qed.

Lemma countLabel_positive c acts :
  Spec.countLabel "activity" c acts <> 0%nat ->
  exists a, a ∈ acts /\ Spec.categoryLabel "activity" a = c.
Proof.
  induction acts as [|a acts IH]; [done|].
  rewrite countLabel_cons. case_decide as Ha.
  - intros _. exists a. split; [apply list_elem_of_here | exact Ha].
  - intros Hn. destruct (IH Hn) as (b & Hb & Hc).
    exists b. split; [by apply list_elem_of_further | exact Hc].
Qed.

(** The mapping from category name to count of the specification. *)
Lemma tally_lookup counts a c :
  Spec.tally "activity" counts a !! c
  = if decide (Spec.categoryLabel "activity" a = c)
    then Some (default 0 (counts !! c) + 1)%nat
    else counts !! c.
Proof.
  unfold Spec.tally. case_decide as Hc.
  - subst c. by rewrite lookup_insert_eq.
  - by rewrite lookup_insert_ne.
Qed.

Lemma tallies_lookup acts counts c :
  fold_left (Spec.tally "activity") acts counts !! c
  = if decide (Spec.countLabel "activity" c acts = 0)%nat then counts !! c
    else Some (default 0 (counts !! c) + Spec.countLabel "activity" c acts)%nat.
Proof.
  revert counts. induction acts as [|a acts IH]; intros counts; [reflexivity|].
  cbn [fold_left]. rewrite IH, countLabel_cons, tally_lookup.
  destruct (decide (Spec.categoryLabel "activity" a = c)) as [Ha|Ha].
  - rewrite (decide_False (P := S _ = 0%nat)) by lia.
    cbn [default from_option id]. case_decide as H0; f_equal; unfold id; lia.
  - reflexivity.
Qed.

Lemma totalOfCounts_insert counts c n :
  counts !! c = None ->
  Spec.totalOfCounts (<[c := n]> counts) = (n + Spec.totalOfCounts counts)%nat.
Proof.
  intros Hc. unfold Spec.totalOfCounts.
  rewrite map_fold_insert_L; [reflexivity | | exact Hc].
  intros. lia.
Qed.

Lemma totalOfCounts_tally counts a :
  Spec.totalOfCounts (Spec.tally "activity" counts a) = S (Spec.totalOfCounts counts).
Proof.
  unfold Spec.tally.
  set (c := Spec.categoryLabel "activity" a).
  destruct (counts !! c) as [n|] eqn:Hc; cbn [default from_option].
  - rewrite <- insert_delete_eq.
    rewrite <- (insert_delete_id counts c n Hc) at 2.
    rewrite !totalOfCounts_insert by apply lookup_delete_eq. unfold id. lia.
  - rewrite totalOfCounts_insert by done. lia.
Qed.

Lemma totalOfCounts_tallies acts counts :
  Spec.totalOfCounts (fold_left (Spec.tally "activity") acts counts)
  = (Spec.totalOfCounts counts + length acts)%nat.
Proof.
  revert counts. induction acts as [|a acts IH]; intros counts; cbn [fold_left length].
  - lia.
  - rewrite IH, totalOfCounts_tally. lia.
Qed.

(** The numbers of an object that holds only numbers add up to the sum of
    these numbers. *)
Lemma totalOfNumbers_Num counts :
  Spec.totalOfNumbers (JsObject.Num <$> counts) = Spec.totalOfCounts counts.
Proof.
  induction counts as [|c n counts Hc _ IH] using map_first_key_ind.
  - unfold Spec.totalOfNumbers, Spec.totalOfCounts.
    by rewrite fmap_empty, !map_fold_empty.
  - rewrite fmap_insert, totalOfCounts_insert by exact Hc. rewrite <- IH.
    unfold Spec.totalOfNumbers. rewrite map_fold_insert_L; [reflexivity | |].
    + intros ? ? [] [] ? ? ? ?; lia.
    + by rewrite lookup_fmap, Hc.
Qed.

(** One assignment [categories[category] = (categories[category] || 0) + 1],
    seen from a name [c]. *)
Lemma countCategory_lookup categories a c :
  ItineraryViewPage.countCategory categories a !! c
  = if decide (Spec.categoryLabel "activity" a = c /\ c <> "__proto__")
    then Some (JsObject.or_zero_plus_one (JsObject.get categories c))
    else categories !! c.
Proof.
  unfold ItineraryViewPage.countCategory, JsObject.set.
  rewrite categoryOrDefault_spec.
  set (label := Spec.categoryLabel "activity" a).
  case_bool_decide as Hproto.
  - rewrite decide_False; [reflexivity|]. intros [Hl Hc]. congruence.
  - destruct (decide (label = c)) as [Hl|Hl].
    + subst c. rewrite lookup_insert_eq. by rewrite decide_True.
    + rewrite lookup_insert_ne by done. rewrite decide_False; [reflexivity|].
      by intros [? _].
Qed.

(** What the object built by [getCategoryBreakdown] holds under a name:
    nothing when no activity is filed under it; else the number of these
    activities, unless the name is one of [Object.prototype]: then the
    object holds a string under it, and nothing at all under
    [__proto__]. *)
Lemma breakdown_lookup acts c :
  fold_left ItineraryViewPage.countCategory acts ∅ !! c
  = if decide (Spec.countLabel "activity" c acts = 0)%nat then None
    else if decide (c = "__proto__") then None
    else if decide (c ∈ JsObject.prototypeMembers) then Some JsObject.Str
    else Some (JsObject.Num (Spec.countLabel "activity" c acts)).
Proof.
  induction acts as [|a acts IH] using rev_ind;
    [cbn [fold_left]; by rewrite lookup_empty|].
  rewrite fold_left_app. cbn [fold_left].
  rewrite countCategory_lookup, countLabel_snoc. unfold JsObject.get. rewrite IH.
  destruct (decide (Spec.categoryLabel "activity" a = c)) as [Ha|Ha].
  - rewrite (decide_False (P := S _ = 0%nat)) by lia.
    destruct (decide (c = "__proto__")) as [Hp|Hp].
    + rewrite decide_False by (by intros [_ ?]). by case_decide.
    + rewrite decide_True by done.
      destruct (decide (Spec.countLabel "activity" c acts = 0%nat)) as [H0|H0].
      * rewrite H0. case_bool_decide as Hm.
        -- by rewrite decide_True.
        -- by rewrite decide_False.
      * destruct (decide (c ∈ JsObject.prototypeMembers)) as [Hm|Hm]; [reflexivity|].
        cbn [JsObject.or_zero_plus_one]. by rewrite Nat.add_1_r.
  - rewrite decide_False by (by intros [? _]). reflexivity.
Qed.
End Counting.

(** C9, where the code departs from it. A category whose name is one of
    the members of [Object.prototype] is never counted: when activities
    are filed under such a name, the breakdown holds no number under it
    (under [__proto__] nothing at all, under the other names a string),
    whereas the specification has their count there. *)
Theorem category_breakdown_misses_inherited_names (days : list Day.t) (c : string) :
  c ∈ JsObject.prototypeMembers ->
  Spec.categoryCount "activity" days c <> 0%nat ->
  ItineraryViewPage.getCategoryBreakdown days !! c
  = (if decide (c = "__proto__") then None else Some JsObject.Str)
  /\ ItineraryViewPage.getCategoryBreakdown days !! c
     <> Some (JsObject.Num (Spec.categoryCount "activity" days c)).
Proof.
  intros Hmember Hcount.
  assert (Hlookup : ItineraryViewPage.getCategoryBreakdown days !! c
                    = if decide (c = "__proto__") then None else Some JsObject.Str).
  { unfold ItineraryViewPage.getCategoryBreakdown.
    rewrite getCategoryBreakdown_flat, breakdown_lookup.
    unfold Spec.categoryCount in Hcount. rewrite decide_False by exact Hcount.
    case_decide; [reflexivity|]. by rewrite decide_True. }
  split; [exact Hlookup|]. rewrite Hlookup. by case_decide.
Qed.

Lemma category_breakdown_misses_inherited_names_witness :
  ItineraryViewPage.getCategoryBreakdown [Sample.D4] !! "__proto__" = None
  /\ ItineraryViewPage.getCategoryBreakdown [Sample.D4] !! "constructor"
     = Some JsObject.Str
  /\ Spec.categoryCount "activity" [Sample.D4] "__proto__" = 1%nat
  /\ Spec.categoryCount "activity" [Sample.D4] "constructor" = 2%nat.
Proof.
  split; [|split; [|split; reflexivity]].
  - apply (proj1 (category_breakdown_misses_inherited_names [Sample.D4] "__proto__"
                    ltac:(by apply (bool_decide_unpack _))
                    ltac:(by apply (bool_decide_unpack _)))).
  - apply (proj1 (category_breakdown_misses_inherited_names [Sample.D4] "constructor"
                    ltac:(by apply (bool_decide_unpack _))
                    ltac:(by apply (bool_decide_unpack _)))).
Defined.

(** The failing input, evaluated: of the four activities of the day, the
    breakdown counts one; the two filed under "constructor" have become a
    string and the one filed under "__proto__" has left no trace. *)
Example scenario_inherited_names :
  ItineraryViewPage.getCategoryBreakdown [Sample.D4]
  = <["constructor" := JsObject.Str]> (<["food" := JsObject.Num 1]> ∅)
  /\ Spec.totalOfNumbers (ItineraryViewPage.getCategoryBreakdown [Sample.D4]) = 1%nat
  /\ ItineraryViewPage.getActivityCount [Sample.D4] = 4%nat.
Proof. split; [|split]; vm_compute; reflexivity. Qed.

(** X24. When no activity is filed under a name of a member of
    [Object.prototype], the breakdown is the mapping of the
    specification: it maps each category name to the number of activities
    filed under it, an activity without a category being counted under
    the one default label "activity"; a name no activity is filed under is
    absent. The counts add up to the activity count, which is the sum of
    the lengths of the days' activity lists. *)
Theorem category_breakdown_counts_own_names (days : list Day.t) :
  (forall a, a ∈ Spec.allActivities days ->
             ItineraryViewPage.categoryOrDefault a ∉ JsObject.prototypeMembers) ->
  let breakdown := ItineraryViewPage.getCategoryBreakdown days in
  (forall c : string,
     breakdown !! c
     = let n := Spec.categoryCount "activity" days c in
       if decide (n = 0)%nat then None else Some (JsObject.Num n))
  /\ Spec.totalOfNumbers breakdown = ItineraryViewPage.getActivityCount days
  /\ ItineraryViewPage.getActivityCount days = Spec.activityCount days.
Proof.
  intros Hsafe breakdown.
  assert (Hlookup : forall c : string,
             breakdown !! c
             = if decide (Spec.categoryCount "activity" days c = 0)%nat then None
               else Some (JsObject.Num (Spec.categoryCount "activity" days c))).
  { intros c. subst breakdown. unfold ItineraryViewPage.getCategoryBreakdown.
    rewrite getCategoryBreakdown_flat, breakdown_lookup. unfold Spec.categoryCount.
    case_decide as Hn; [reflexivity|].
    destruct (countLabel_positive _ _ Hn) as (a & Ha & Hc).
    specialize (Hsafe a Ha). rewrite categoryOrDefault_spec, Hc in Hsafe.
    rewrite decide_False; [by rewrite decide_False|].
    intros ->. apply Hsafe. by apply (bool_decide_unpack _). }
  split; [exact Hlookup|]. split.
  - assert (Hmap : breakdown
                   = JsObject.Num <$> fold_left (Spec.tally "activity")
                                                (Spec.allActivities days) ∅).
    { apply map_eq. intros c.
      rewrite Hlookup, lookup_fmap, tallies_lookup, lookup_empty.
      unfold Spec.categoryCount. by case_decide. }
    rewrite Hmap, totalOfNumbers_Num, totalOfCounts_tallies, getActivityCount_length.
    unfold Spec.totalOfCounts. by rewrite map_fold_empty.
  - by rewrite getActivityCount_length, activityCount_length.
Qed.

Lemma category_breakdown_counts_own_names_witness :
  let breakdown := ItineraryViewPage.getCategoryBreakdown Sample.days in
  (forall c : string,
     breakdown !! c
     = let n := Spec.categoryCount "activity" Sample.days c in
       if decide (n = 0)%nat then None else Some (JsObject.Num n))
  /\ Spec.totalOfNumbers breakdown = ItineraryViewPage.getActivityCount Sample.days
  /\ ItineraryViewPage.getActivityCount Sample.days = Spec.activityCount Sample.days.
Proof.
  apply category_breakdown_counts_own_names. intros a Ha.
  repeat (apply elem_of_cons in Ha as [-> | Ha]);
    [by apply (bool_decide_unpack _) .. |].
  by apply elem_of_nil in Ha.
Defined.

(** ** The scenarios of the specification *)

(** Day A has activities X, Y, Z; moving index 0 to index 2 gives Y, Z, X. *)
Example scenario_same_day :
  reorderedActivities [Sample.X; Sample.Y; Sample.Z'] 0 2
  = JsArray.from [Sample.Y; Sample.Z'; Sample.X].
Proof. reflexivity. Qed.

(** Day A is X, Y and day B is P, Q; moving A[0] to index 1 of B gives
    A = Y and B = P, X, Q, and the handler writes both lists. *)
Example scenario_between_days :
  handleDragEnd Sample.days (Sample.drop "activity" "d1" "d2" 0 1)
  = ([SetActivities "d1" (JsArray.from [Sample.Y]);
      SetActivities "d2" (JsArray.from [Sample.P; Sample.X; Sample.Q'])],
     Returned).
Proof. reflexivity. Qed.

(** Three days D1, D2, D3; moving index 2 to index 0 gives D3, D1, D2 with
    orders 0, 1, 2. *)
Example scenario_days :
  reorderedItineraries Sample.days 2 0 = JsArray.from [Sample.D3; Sample.D1; Sample.D2]
  /\ handleDragEnd Sample.days (Sample.drop "day" "days" "days" 2 0)
     = ([SetOrder "d3" 0; SetOrder "d1" 1; SetOrder "d2" 2], Returned).
Proof. split; reflexivity. Qed.

(** Two days with one activity each, costing 10 ("food") and 25
    ("activity"): total 35, two activities, one per category. *)
Example scenario_aggregates :
  let days := [Day.mk "a" "t" "2024-05-01" "A" EmptyString 0 (Some [Sample.X]);
               Day.mk "b" "t" "2024-05-02" "B" EmptyString 1 (Some [Sample.Y])] in
  Helpers.calculateTotalCost days = 35%float
  /\ ItineraryViewPage.getActivityCount days = 2%nat
  /\ ItineraryViewPage.getCategoryBreakdown days
     = <["food" := JsObject.Num 1]> (<["activity" := JsObject.Num 1]> ∅).
Proof.
  split; [reflexivity|]. split; [reflexivity|]. vm_compute. reflexivity.
Qed.

(** A drop without destination does nothing; a source index beyond the
    end of the days makes the handler throw after the writes that precede
    the hole. *)
Example scenario_cancelled :
  handleDragEnd Sample.days
    {| source := {| droppableId := "days"; index := 0 |};
       destination := None; type := "day" |}
  = ([], Returned).
Proof. reflexivity. Qed.

(** A negative source index counts from the end: the last day is moved. *)
Example scenario_negative_source :
  handleDragEnd Sample.days (Sample.drop "day" "days" "days" (-1) 0)
  = ([SetOrder "d3" 0; SetOrder "d1" 1; SetOrder "d2" 2], Returned).
Proof. reflexivity. Qed.

(** A source index beyond the end of an activity list moves nothing:
    the source list is written back as it was and [undefined] is put into
    the destination list. *)
Example scenario_activity_source_beyond_end :
  handleDragEnd Sample.days (Sample.drop "activity" "d1" "d2" 5 0)
  = ([SetActivities "d1" (JsArray.from [Sample.X; Sample.Y]);
      SetActivities "d2" (None :: JsArray.from [Sample.P; Sample.Q'])],
     Returned).
Proof. reflexivity. Qed.

Example scenario_source_beyond_end :
  handleDragEnd Sample.days (Sample.drop "day" "days" "days" 5 1)
  = ([SetOrder "d1" 0], Threw_TypeError).
Proof. reflexivity. Qed.

(** ** The reorder for arbitrary indices *)

Section SpliceAnyIndex.
Context {X : Type}.
Implicit Types (arr : list X) (start : Z).

(** Whatever the index, removing one element either takes out the element
    at the clamped position or, the clamped position being the end, takes
    out nothing. *)
Lemma splice_remove_cases arr start :
  let k := JsArray.relativeStart (length arr) start in
  (exists x, arr !! k = Some x
             /\ JsArray.splice arr start 1 [] = ([x], Spec.removeAt k arr))
  \/ (k = length arr /\ JsArray.splice arr start 1 [] = ([], arr)).
Proof.
  intros k. pose proof (relativeStart_le (length arr) start) as Hle. fold k in Hle.
  destruct (decide (k = length arr)) as [Hk|Hk].
  - right. split; [exact Hk|]. unfold JsArray.splice. fold k.
    unfold JsArray.actualDeleteCount. rewrite Hk.
    replace (Z.to_nat (Z.min (Z.max 1 0) (Z.of_nat (length arr) - Z.of_nat (length arr))))
      with 0%nat by lia.
    by rewrite Nat.add_0_r, !drop_all, firstn_all, app_nil_r.
  - left. destruct (lookup_lt_is_Some_2 arr k) as [x Hx]; [lia|].
    exists x. split; [exact Hx|]. unfold JsArray.splice, Spec.removeAt. fold k.
    unfold JsArray.actualDeleteCount.
    replace (Z.to_nat (Z.min (Z.max 1 0) (Z.of_nat (length arr) - Z.of_nat k)))
      with 1%nat by lia.
    rewrite (drop_S arr x k Hx). cbn [take app]. rewrite take_0.
    do 3 f_equal. lia.
Qed.

(** Whatever the index, inserting one element puts it at the clamped
    position and removes nothing. *)
Lemma splice_insert_any arr start (x : X) :
  JsArray.splice arr start 0 [x]
  = ([], Spec.insertAt (JsArray.relativeStart (length arr) start) x arr).
Proof.
  pose proof (relativeStart_le (length arr) start) as Hle.
  unfold JsArray.splice, Spec.insertAt, JsArray.actualDeleteCount.
  set (k := JsArray.relativeStart (length arr) start) in *.
  replace (Z.to_nat (Z.min (Z.max 0 0) (Z.of_nat (length arr) - Z.of_nat k)))
    with 0%nat by lia.
  by rewrite take_0, Nat.add_0_r.
Qed.

Lemma relativeStart_lt_iff (len : nat) start :
  (JsArray.relativeStart len start < len)%nat <-> (len <> 0%nat /\ start < Z.of_nat len).
Proof.
  unfold JsArray.relativeStart. destruct (Z.ltb_spec start 0); lia.
Qed.
End SpliceAnyIndex.

Lemma reorder_cases {A} (arr : list (option A)) (s d : Z) :
  (exists x k, arr !! k = Some x
               /\ JsArray.reorder arr s d
                  = Spec.insertAt (JsArray.relativeStart (length arr - 1) d) x
                                  (Spec.removeAt k arr)
               /\ arr <> [] /\ s < Z.of_nat (length arr))
  \/ (JsArray.reorder arr s d
      = Spec.insertAt (JsArray.relativeStart (length arr) d) None arr
      /\ (arr = [] \/ Z.of_nat (length arr) <= s)).
Proof.
  unfold JsArray.reorder.
  destruct (splice_remove_cases arr s) as [(x & Hx & ->) | (Hk & ->)].
  - left. cbn [JsArray.destructure_first]. rewrite splice_insert_any.
    exists x, (JsArray.relativeStart (length arr) s).
    split; [exact Hx|].
    apply lookup_lt_Some in Hx. rewrite removeAt_length by exact Hx.
    split; [reflexivity|].
    apply relativeStart_lt_iff in Hx as [Hne Hs].
    split; [|exact Hs]. intros ->. by apply Hne.
  - right. cbn [JsArray.destructure_first]. rewrite splice_insert_any.
    split; [reflexivity|].
    destruct arr as [|a arr]; [by left|right].
    destruct (Z_lt_le_dec s (Z.of_nat (length (a :: arr)))) as [Hlt|Hge]; [|exact Hge].
    assert (JsArray.relativeStart (length (a :: arr)) s < length (a :: arr))%nat
      by (apply relativeStart_lt_iff; split; [cbn; lia | exact Hlt]).
    lia.
Qed.

Lemma from_inj {A} (xs ys : list A) : JsArray.from xs = JsArray.from ys -> xs = ys.
Proof. unfold JsArray.from. apply (inj (fmap Some)). Qed.

(** X1. Whatever the two indices (negative, too large, on an empty list),
    the in-place reorder loses or duplicates no element: either the source
    index designates an element and the result is a rearrangement of the
    input, or the source index lies at or beyond the end (or the list is
    empty) and the result is the input with one [undefined] slot added. *)
Theorem reorder_never_loses_an_element {A} (xs : list A) (sourceIndex destIndex : Z) :
  (exists xs', JsArray.reorder (JsArray.from xs) sourceIndex destIndex = JsArray.from xs'
               /\ xs' ≡ₚ xs
               /\ xs <> [] /\ sourceIndex < Z.of_nat (length xs))
  \/ (JsArray.reorder (JsArray.from xs) sourceIndex destIndex ≡ₚ None :: JsArray.from xs
      /\ (xs = [] \/ Z.of_nat (length xs) <= sourceIndex)).
Proof.
  destruct (reorder_cases (JsArray.from xs) sourceIndex destIndex)
    as [(x & k & Hx & Hre & Hne & Hs) | (Hre & Hs)].
  - left. unfold JsArray.from in Hx. rewrite list_lookup_fmap in Hx.
    destruct (xs !! k) as [y|] eqn:Hy; [|discriminate]. injection Hx as <-.
    eexists (Spec.insertAt _ y (Spec.removeAt k xs)).
    split; [|split; [|split]].
    + rewrite Hre. unfold JsArray.from. by rewrite fmap_insertAt, fmap_removeAt.
    + rewrite insertAt_perm. by apply removeAt_perm.
    + intros ->. by apply Hne.
    + by rewrite from_length in Hs.
  - right. split.
    + rewrite Hre. apply insertAt_perm.
    + rewrite from_length in Hs. destruct Hs as [Hs|Hs]; [left|by right].
      by destruct xs.
Qed.

(** The reorder of a copy of an array of objects, for arbitrary indices. *)
Lemma reorder_from_cases {A} (xs : list A) (s d : Z) :
  (exists y k, xs !! k = Some y
               /\ JsArray.reorder (JsArray.from xs) s d
                  = JsArray.from
                      (Spec.insertAt (JsArray.relativeStart (length xs - 1) d) y
                                     (Spec.removeAt k xs))
               /\ xs <> [] /\ s < Z.of_nat (length xs))
  \/ (JsArray.reorder (JsArray.from xs) s d
      = JsArray.from (take (JsArray.relativeStart (length xs) d) xs)
        ++ None :: JsArray.from (drop (JsArray.relativeStart (length xs) d) xs)
      /\ (xs = [] \/ Z.of_nat (length xs) <= s)).
Proof.
  destruct (reorder_cases (JsArray.from xs) s d)
    as [(x & k & Hx & Hre & Hne & Hs) | (Hre & Hs)]; rewrite from_length in *.
  - left. unfold JsArray.from in Hx. rewrite list_lookup_fmap in Hx.
    destruct (xs !! k) as [y|] eqn:Hy; [|discriminate]. injection Hx as <-.
    exists y, k. split; [exact Hy|]. split; [|split; [|exact Hs]].
    + rewrite Hre. unfold JsArray.from. by rewrite fmap_insertAt, fmap_removeAt.
    + intros ->. by apply Hne.
  - right. split.
    + rewrite Hre. unfold Spec.insertAt, JsArray.from. by rewrite fmap_take, fmap_drop.
    + destruct Hs as [Hs|Hs]; [left|by right]. by destruct xs.
Qed.

(** The same, with the position that is taken out. *)
Lemma reorder_from_at {A} (xs : list A) (s d : Z) :
  (exists y, xs !! JsArray.relativeStart (length xs) s = Some y
             /\ JsArray.reorder (JsArray.from xs) s d
                = JsArray.from
                    (Spec.insertAt (JsArray.relativeStart (length xs - 1) d) y
                       (Spec.removeAt (JsArray.relativeStart (length xs) s) xs))
             /\ xs <> [] /\ s < Z.of_nat (length xs))
  \/ (JsArray.reorder (JsArray.from xs) s d
      = JsArray.from (take (JsArray.relativeStart (length xs) d) xs)
        ++ None :: JsArray.from (drop (JsArray.relativeStart (length xs) d) xs)
      /\ (xs = [] \/ Z.of_nat (length xs) <= s)).
Proof.
  destruct (reorder_from_cases xs s d) as [(y & k & Hy & Hre & Hne & Hs) | H];
    [left | by right].
  unfold JsArray.reorder in Hre.
  destruct (splice_remove_cases (JsArray.from xs) s) as [(x & Hx & Hsp) | (Hk & Hsp)];
    rewrite from_length in *.
  - set (k0 := JsArray.relativeStart (length xs) s) in *.
    unfold JsArray.from in Hx. rewrite list_lookup_fmap in Hx.
    destruct (xs !! k0) as [y0|] eqn:Hy0; [|discriminate]. injection Hx as <-.
    exists y0. split; [reflexivity|]. split; [|done].
    unfold JsArray.reorder. rewrite Hsp. cbn [JsArray.destructure_first].
    rewrite splice_insert_any.
    apply lookup_lt_Some in Hy0.
    rewrite removeAt_length by (rewrite from_length; exact Hy0).
    rewrite from_length.
    unfold JsArray.from. by rewrite fmap_insertAt, fmap_removeAt.
  - exfalso.
    assert (JsArray.relativeStart (length xs) s < length xs)%nat
      by (apply relativeStart_lt_iff; split; [by destruct xs | exact Hs]).
    lia.
Qed.

(** ** How a drop of a day ends *)

Lemma orderUpdates_hole (xs ys : list Day.t) (k : nat) :
  orderUpdates k (JsArray.from xs ++ None :: JsArray.from ys)
  = (imap (orderWrite (fun i => Z.of_nat (k + i))) xs, Threw_TypeError).
Proof.
  unfold JsArray.from. revert k.
  induction xs as [|x xs IH]; intros k; [reflexivity|].
  rewrite fmap_cons, imap_cons. cbn [app orderUpdates]. rewrite (IH (S k)).
  unfold orderWrite at 2. rewrite Nat.add_0_r. f_equal. f_equal.
  apply imap_ext. intros i y _. unfold orderWrite, compose. f_equal. lia.
Qed.

(** X2. A drop of a day ends in one of two ways, decided by the source
    index alone. If it designates a day (the list is not empty and the
    index is below its length, negative indices included), the handler
    returns after exactly one [order] write per day: the days are in the
    sequence that has the designated day taken out and put back at the
    clamped destination, and the write to the day at position [i] of that
    sequence carries [i]. Otherwise a [TypeError] escapes the handler,
    after it has already issued the [order] writes of the days that
    precede the drop position. *)
Theorem day_drop_returns_or_throws (days : list Day.t) (fromId toId : string)
    (sourceIndex destIndex : Z) :
  let r := handleDragEnd days (dayDrop fromId toId sourceIndex destIndex) in
  let s := JsArray.relativeStart (length days) sourceIndex in
  let d := JsArray.relativeStart (length days - 1) destIndex in
  (exists (day : Day.t) (days' : list Day.t),
     days !! s = Some day
     /\ days' = Spec.insertAt d day (Spec.removeAt s days)
     /\ days' ≡ₚ days
     /\ r = (imap (orderWrite Z.of_nat) days', Returned)
     /\ days <> [] /\ sourceIndex < Z.of_nat (length days))
  \/ (r.2 = Threw_TypeError
      /\ r.1 = imap (orderWrite Z.of_nat)
                    (take (JsArray.relativeStart (length days) destIndex) days)
      /\ (days = [] \/ Z.of_nat (length days) <= sourceIndex)).
Proof.
  intros r s d. subst r. unfold handleDragEnd, dayDrop.
  cbn [destination source type index].
  rewrite bool_decide_eq_true_2 by reflexivity. unfold reorderedItineraries.
  destruct (reorder_from_at days sourceIndex destIndex)
    as [(y & Hy & -> & Hne & Hs) | (-> & Hs)].
  - left. fold s in Hy. fold s d. rewrite orderUpdates_from.
    exists y, (Spec.insertAt d y (Spec.removeAt s days)).
    split; [exact Hy|]. split; [reflexivity|]. split; [|done].
    rewrite insertAt_perm. by apply removeAt_perm.
  - right. rewrite orderUpdates_hole. cbn [fst snd]. done.
Qed.

(** ** Moves of activities, seen from the handler *)

Lemma findDay_Some (itineraries : list Day.t) (dayId : string) (day : Day.t) :
  findDay itineraries dayId = Some day -> day ∈ itineraries /\ Day.id day = dayId.
Proof.
  unfold findDay. intros H. apply find_some in H as [Hin Hid].
  split; [by apply list_elem_of_In | by apply bool_decide_eq_true_1 in Hid].
Qed.

(** X3. A drop of an activity inside its own day, with both indices
    within the day's list, makes the handler write exactly that day's
    list, in which the dragged activity sits at the drop position and all
    other activities keep their relative order. *)
Theorem same_day_drop_repositions (itineraries : list Day.t) (day : Day.t)
    (activities : list Activity.t) (dayId : string) (sourceIndex destIndex : Z) :
  findDay itineraries dayId = Some day ->
  Day.activities day = Some activities ->
  0 <= sourceIndex < Z.of_nat (length activities) ->
  0 <= destIndex < Z.of_nat (length activities) ->
  exists activities',
    handleDragEnd itineraries (activityDrop dayId dayId sourceIndex destIndex)
    = ([SetActivities dayId (JsArray.from activities')], Returned)
    /\ activities' !! Z.to_nat destIndex = activities !! Z.to_nat sourceIndex
    /\ Spec.removeAt (Z.to_nat destIndex) activities'
       = Spec.removeAt (Z.to_nat sourceIndex) activities
    /\ activities' ≡ₚ activities.
Proof.
  intros Hfind Hacts Hs Hd.
  destruct (lookup_in_range activities sourceIndex Hs) as [a Ha].
  pose proof (removeAt_length activities (Z.to_nat sourceIndex) ltac:(lia)) as Hlen.
  exists (Spec.insertAt (Z.to_nat destIndex) a
            (Spec.removeAt (Z.to_nat sourceIndex) activities)).
  split; [|split; [|split]].
  - unfold handleDragEnd, activityDrop. cbn [destination source type index droppableId].
    rewrite bool_decide_eq_false_2 by discriminate.
    rewrite !bool_decide_eq_true_2 by reflexivity.
    rewrite Hfind, Hacts. unfold reorderedActivities.
    by rewrite (reorder_from_in_range activities sourceIndex destIndex a) by (done || lia).
  - rewrite Ha. apply insertAt_lookup. lia.
  - apply removeAt_insertAt. lia.
  - rewrite insertAt_perm. by apply removeAt_perm.
Qed.

Lemma same_day_drop_repositions_witness :
  exists activities',
    handleDragEnd Sample.days (activityDrop "d1" "d1" 0 1)
    = ([SetActivities "d1" (JsArray.from activities')], Returned)
    /\ activities' !! Z.to_nat 1 = [Sample.X; Sample.Y] !! Z.to_nat 0
    /\ Spec.removeAt (Z.to_nat 1) activities'
       = Spec.removeAt (Z.to_nat 0) [Sample.X; Sample.Y]
    /\ activities' ≡ₚ [Sample.X; Sample.Y].
Proof.
  apply (same_day_drop_repositions Sample.days Sample.D1);
    (reflexivity || (simpl; lia)).
Defined.

(** X4. Moving an activity from one day to another and then back, from
    the position it was given to the position it came from, restores both
    lists. *)
Theorem moveActivity_round_trip (src dst : list Activity.t) (sourceIndex destIndex : Z) :
  0 <= sourceIndex < Z.of_nat (length src) ->
  0 <= destIndex <= Z.of_nat (length dst) ->
  exists src' dst',
    movedActivities src dst sourceIndex destIndex = (JsArray.from src', JsArray.from dst')
    /\ movedActivities dst' src' destIndex sourceIndex = (JsArray.from dst, JsArray.from src).
Proof.
  intros Hs Hd. destruct (lookup_in_range src sourceIndex Hs) as [a Ha].
  pose proof (removeAt_length src (Z.to_nat sourceIndex) ltac:(lia)) as Hlen.
  exists (Spec.removeAt (Z.to_nat sourceIndex) src),
         (Spec.insertAt (Z.to_nat destIndex) a dst).
  split; [apply movedActivities_in_range; (done || lia)|].
  rewrite (movedActivities_in_range _ _ destIndex sourceIndex a).
  - by rewrite removeAt_insertAt, insertAt_removeAt by (done || lia).
  - lia.
  - apply insertAt_lookup. lia.
  - lia.
Qed.

Lemma moveActivity_round_trip_witness :
  exists src' dst',
    movedActivities [Sample.X; Sample.Y] [Sample.P; Sample.Q'] 0 1
    = (JsArray.from src', JsArray.from dst')
    /\ movedActivities dst' src' 1 0
       = (JsArray.from [Sample.P; Sample.Q'], JsArray.from [Sample.X; Sample.Y]).
Proof. apply moveActivity_round_trip; simpl; lia. Defined.

Lemma orderUpdates_targets (items : list (option Day.t)) (k : nat) (w : write) :
  w ∈ (orderUpdates k items).1 ->
  exists item, Some item ∈ items /\ writeDocId w = Day.id item.
Proof.
  revert k. induction items as [|[item|] items IH]; intros k; cbn [orderUpdates].
  - cbn. by intros ?%elem_of_nil.
  - destruct (orderUpdates (S k) items) as [ws o] eqn:E. cbn [fst].
    intros [->|Hw]%elem_of_cons.
    + exists item. split; [apply list_elem_of_here | reflexivity].
    + destruct (IH (S k)) as (item' & Hin & Hid); [by rewrite E|].
      exists item'. split; [by apply list_elem_of_further | exact Hid].
  - cbn. by intros ?%elem_of_nil.
Qed.

Lemma reorder_from_elem {A} (xs : list A) (s d : Z) (x : A) :
  Some x ∈ JsArray.reorder (JsArray.from xs) s d -> x ∈ xs.
Proof.
  destruct (reorder_from_cases xs s d) as [(y & k & Hy & -> & _) | (-> & _)].
  - unfold JsArray.from. intros (x' & [= <-] & Hx)%list_elem_of_fmap.
    apply (elem_of_Permutation_proper _ _ _ (insertAt_perm _ _ _)) in Hx.
    by rewrite (removeAt_perm xs y k Hy) in Hx.
  - unfold JsArray.from. rewrite elem_of_app, elem_of_cons.
    intros [Hx | [[=] | Hx]]; apply list_elem_of_fmap in Hx as (x' & [= <-] & Hx).
    + rewrite <- (take_drop (JsArray.relativeStart (length xs) d) xs).
      apply elem_of_app. by left.
    + rewrite <- (take_drop (JsArray.relativeStart (length xs) d) xs).
      apply elem_of_app. by right.
Qed.

(** X5. Whatever is dropped, and wherever, the handler writes only to
    documents of days that are loaded: the id of every write it issues is
    the id of one of the itineraries. *)
Theorem handleDragEnd_writes_loaded_days (itineraries : list Day.t)
    (result : DropResult) (w : write) :
  w ∈ (handleDragEnd itineraries result).1 ->
  writeDocId w ∈ Day.id <$> itineraries.
Proof.
  unfold handleDragEnd.
  destruct (destination result) as [dest|]; [|by intros ?%elem_of_nil].
  case_bool_decide as Hday.
  { intros (item & Hitem & ->)%orderUpdates_targets.
    apply list_elem_of_fmap_2. by eapply reorder_from_elem. }
  case_bool_decide as Hact; [|by intros ?%elem_of_nil].
  case_bool_decide as Hsame.
  - destruct (findDay itineraries _) as [day|] eqn:Hfind; [|by intros ?%elem_of_nil].
    destruct (Day.activities day); [|by intros ?%elem_of_nil].
    apply findDay_Some in Hfind as [Hin Hid]. cbn [fst].
    intros ->%list_elem_of_singleton. cbn [writeDocId]. rewrite <- Hid.
    by apply list_elem_of_fmap_2.
  - destruct (findDay itineraries (droppableId (source result)))
      as [sourceDay|] eqn:Hs; [|by intros ?%elem_of_nil].
    destruct (findDay itineraries (droppableId dest))
      as [destDay|] eqn:Hd; [|by intros ?%elem_of_nil].
    destruct (movedActivities _ _ _ _) as [sa da]. cbn [fst].
    apply findDay_Some in Hs as [Hins Hids]. apply findDay_Some in Hd as [Hind Hidd].
    intros [->|[->|?%elem_of_nil]%elem_of_cons]%elem_of_cons; [| |done];
      cbn [writeDocId]; [rewrite <- Hids | rewrite <- Hidd];
      by apply list_elem_of_fmap_2.
Qed.

Lemma handleDragEnd_writes_loaded_days_witness :
  writeDocId (SetActivities "d2" (JsArray.from [Sample.P; Sample.X; Sample.Q']))
  ∈ Day.id <$> Sample.days.
Proof.
  apply (handleDragEnd_writes_loaded_days Sample.days (activityDrop "d1" "d2" 0 1)).
  simpl. apply list_elem_of_further, list_elem_of_here.
Defined.

(** ** Adding, editing and deleting activities *)

Section BuilderFacts.
Variable parseFloat : string -> float.
Implicit Types (itineraries : list Day.t) (day : Day.t) (activities : list Activity.t).
Implicit Types (dayId activityId : string).

Lemma remainingActivities_elem activities activityId (a : Activity.t) :
  a ∈ Builder.remainingActivities activities activityId
  <-> a ∈ activities /\ Activity.id a <> activityId.
Proof.
  unfold Builder.remainingActivities.
  rewrite !list_elem_of_In, filter_In, negb_true_iff, bool_decide_eq_false.
  reflexivity.
Qed.

Lemma remainingActivities_absent activities activityId :
  activityId ∉ Activity.id <$> activities ->
  Builder.remainingActivities activities activityId = activities.
Proof.
  unfold Builder.remainingActivities.
  induction activities as [|a activities IH]; [reflexivity|].
  rewrite fmap_cons, not_elem_of_cons. intros [Hne Hrest]. cbn [List.filter].
  rewrite bool_decide_eq_false_2 by congruence. cbn [negb]. by rewrite IH.
Qed.

Lemma remainingActivities_sublist activities activityId :
  Builder.remainingActivities activities activityId `sublist_of` activities.
Proof.
  unfold Builder.remainingActivities.
  induction activities as [|a activities IH]; [constructor|].
  cbn [List.filter]. destruct (negb _); by constructor.
Qed.

Lemma remainingActivities_app xs ys activityId :
  Builder.remainingActivities (xs ++ ys) activityId
  = Builder.remainingActivities xs activityId
    ++ Builder.remainingActivities ys activityId.
Proof. unfold Builder.remainingActivities. apply List.filter_app. Qed.

Lemma remainingActivities_ids activities activityId :
  activityId ∉ Activity.id <$> Builder.remainingActivities activities activityId.
Proof.
  intros (a & Hid & Ha)%list_elem_of_fmap.
  apply remainingActivities_elem in Ha as [_ Hne]. by apply Hne.
Qed.

Lemma remainingActivities_length_unique activities activityId :
  NoDup (Activity.id <$> activities) ->
  activityId ∈ Activity.id <$> activities ->
  S (length (Builder.remainingActivities activities activityId)) = length activities.
Proof.
  induction activities as [|a activities IH]; [by intros _ ?%elem_of_nil|].
  rewrite fmap_cons, NoDup_cons. intros [Hnotin Hnd] Hin.
  unfold Builder.remainingActivities. cbn [List.filter length].
  case_bool_decide as Ha; cbn [negb length].
  - f_equal. subst activityId.
    change (List.filter _ activities)
      with (Builder.remainingActivities activities (Activity.id a)).
    by rewrite (remainingActivities_absent activities (Activity.id a)).
  - f_equal. apply IH; [done|]. apply elem_of_cons in Hin as [Heq|Hin]; [congruence|done].
Qed.

(** X6. Deleting an activity of a day that has a list of activities
    writes that list without the activities of the given id and with all
    others, in their order; nothing changes when no activity has the id;
    no activity of that id is left, so deleting again changes nothing;
    and when the ids of the day's activities are distinct and the id is
    among them, exactly one activity goes. *)
Theorem deleteActivity_removes_the_activity itineraries day activities dayId activityId :
  findDay itineraries dayId = Some day ->
  Day.activities day = Some activities ->
  exists activities',
    Builder.deleteActivity itineraries dayId activityId
    = Updated (SetActivities dayId (JsArray.from activities'))
    /\ (forall a, a ∈ activities' <-> a ∈ activities /\ Activity.id a <> activityId)
    /\ activities' `sublist_of` activities
    /\ (activityId ∉ Activity.id <$> activities -> activities' = activities)
    /\ Builder.remainingActivities activities' activityId = activities'
    /\ (NoDup (Activity.id <$> activities) ->
        activityId ∈ Activity.id <$> activities ->
        S (length activities') = length activities).
Proof.
  intros Hfind Hacts.
  exists (Builder.remainingActivities activities activityId).
  split; [|split; [|split; [|split; [|split]]]].
  - unfold Builder.deleteActivity. by rewrite Hfind, Hacts.
  - intros a. apply remainingActivities_elem.
  - apply remainingActivities_sublist.
  - apply remainingActivities_absent.
  - apply remainingActivities_absent, remainingActivities_ids.
  - apply remainingActivities_length_unique.
Qed.

Lemma deleteActivity_removes_the_activity_witness :
  exists activities',
    Builder.deleteActivity Sample.days "d1" "X"
    = Updated (SetActivities "d1" (JsArray.from activities'))
    /\ (forall a, a ∈ activities' <-> a ∈ [Sample.X; Sample.Y] /\ Activity.id a <> "X")
    /\ activities' `sublist_of` [Sample.X; Sample.Y]
    /\ ("X" ∉ Activity.id <$> [Sample.X; Sample.Y] -> activities' = [Sample.X; Sample.Y])
    /\ Builder.remainingActivities activities' "X" = activities'
    /\ (NoDup (Activity.id <$> [Sample.X; Sample.Y]) ->
        "X" ∈ Activity.id <$> [Sample.X; Sample.Y] ->
        S (length activities') = length [Sample.X; Sample.Y]).
Proof.
  apply (deleteActivity_removes_the_activity Sample.days Sample.D1); reflexivity.
Defined.





Lemma isEmptyString_false (text : string) :
  text <> EmptyString -> isEmptyString text = false.
Proof. intros H. unfold isEmptyString. by apply bool_decide_eq_false_2. Qed.


(** X8. On a day whose document has no [activities] field the four
    handlers disagree: editing and deleting an activity end in the error
    message of their [catch] without writing, a drop inside the day is
    ignored without any message, and adding an activity (name and start
    time filled in) writes a list holding just the new activity. *)
Theorem handlers_on_a_day_without_activities itineraries day dayId activityId
    (updates : ActivityUpdates.t) (newActivity : NewActivity.t) (generatedId : string)
    (sourceIndex destIndex : Z) :
  findDay itineraries dayId = Some day ->
  Day.activities day = None ->
  NewActivity.name newActivity <> EmptyString ->
  NewActivity.startTime newActivity <> EmptyString ->
  Builder.updateActivity itineraries dayId activityId updates
  = Failed "Error updating activity: "
  /\ Builder.deleteActivity itineraries dayId activityId
     = Failed "Error deleting activity: "
  /\ handleDragEnd itineraries (activityDrop dayId dayId sourceIndex destIndex)
     = ([], Returned)
  /\ Builder.addNewActivity parseFloat itineraries newActivity generatedId dayId
     = Updated (SetActivities dayId
                  [Some (Builder.activityData parseFloat generatedId newActivity)]).
Proof.
  intros Hfind Hacts Hname Htime.
  unfold Builder.updateActivity, Builder.deleteActivity, Builder.addNewActivity,
    handleDragEnd, activityDrop.
  cbn [destination source type index droppableId].
  rewrite bool_decide_eq_false_2 by discriminate.
  rewrite !bool_decide_eq_true_2 by reflexivity.
  rewrite Hfind, Hacts, !isEmptyString_false by done.
  unfold activitiesOrEmpty. rewrite Hacts. done.
Qed.


(** X10. Adding an activity and then deleting the activity of the
    generated id gives back the list the day had, provided the generated
    id is not the id of an activity already in the day. *)
Theorem add_then_delete_round_trip itineraries day dayId
    (newActivity : NewActivity.t) (generatedId : string) :
  findDay itineraries dayId = Some day ->
  NewActivity.name newActivity <> EmptyString ->
  NewActivity.startTime newActivity <> EmptyString ->
  generatedId ∉ Activity.id <$> activitiesOrEmpty day ->
  exists added,
    Builder.addNewActivity parseFloat itineraries newActivity generatedId dayId
    = Updated (SetActivities dayId (JsArray.from added))
    /\ forall itineraries' day',
         findDay itineraries' dayId = Some day' ->
         Day.activities day' = Some added ->
         Builder.deleteActivity itineraries' dayId generatedId
         = Updated (SetActivities dayId (JsArray.from (activitiesOrEmpty day))).
Proof.
  intros Hfind Hname Htime Hfresh.
  eexists. split.
  - unfold Builder.addNewActivity.
    by rewrite Hfind, !isEmptyString_false by done.
  - intros itineraries' day' Hfind' Hacts'.
    unfold Builder.deleteActivity. rewrite Hfind', Hacts'.
    rewrite remainingActivities_app, remainingActivities_absent by done.
    unfold Builder.remainingActivities. cbn [List.filter Builder.activityData Activity.id].
    rewrite bool_decide_eq_true_2 by reflexivity. cbn [negb].
    by rewrite app_nil_r.
Qed.

(** ** Adding days *)



(** X12. [addNewDay] does not look at the orders in use. When the orders
    of the days were 0 .. n and a day other than the one of order n has
    been deleted since, the order given to the next new day, n, is the
    order of a day that is still there. *)
Theorem addNewDay_after_a_deletion_reuses_an_order (tripId : string)
    (deleted : Day.t) itineraries (newDay : NewDay.t) (now : string) :
  NewDay.date newDay <> EmptyString ->
  NewDay.title newDay <> EmptyString ->
  Day.order <$> (deleted :: itineraries)
    ≡ₚ Z.of_nat <$> seq 0 (S (length itineraries)) ->
  Day.order deleted <> Z.of_nat (length itineraries) ->
  exists dayData (other : Day.t),
    Builder.addNewDay tripId itineraries newDay now = Added dayData
    /\ other ∈ itineraries
    /\ Day.order other = DayData.order dayData.
Proof.
  intros Hdate Htitle Hdense Hnotlast.
  assert (Hin : Z.of_nat (length itineraries) ∈ Day.order <$> (deleted :: itineraries)).
  { rewrite Hdense. apply list_elem_of_fmap_2, elem_of_seq. lia. }
  rewrite fmap_cons in Hin. apply elem_of_cons in Hin as [Heq|Hin]; [congruence|].
  apply list_elem_of_fmap in Hin as (other & Hord & Hother).
  eexists. exists other. split; [|split; [exact Hother|]].
  - unfold Builder.addNewDay. by rewrite !isEmptyString_false by done.
  - by cbn [DayData.order].
Qed.
End BuilderFacts.

Lemma handlers_on_a_day_without_activities_witness :
  Builder.updateActivity Sample.days "d3" "X"
    (ActivityUpdates.mk (Some "Walk") None None None None None None)
  = Failed "Error updating activity: "
  /\ Builder.deleteActivity Sample.days "d3" "X" = Failed "Error deleting activity: "
  /\ handleDragEnd Sample.days (activityDrop "d3" "d3" 0 0) = ([], Returned)
  /\ Builder.addNewActivity sampleParseFloat Sample.days sampleNewActivity "g1" "d3"
     = Updated (SetActivities "d3"
                  [Some (Builder.activityData sampleParseFloat "g1" sampleNewActivity)]).
Proof.
  apply (handlers_on_a_day_without_activities sampleParseFloat Sample.days Sample.D3);
    (reflexivity || discriminate).
Defined.


Lemma add_then_delete_round_trip_witness :
  exists added,
    Builder.addNewActivity sampleParseFloat Sample.days sampleNewActivity "g1" "d1"
    = Updated (SetActivities "d1" (JsArray.from added))
    /\ forall itineraries' day',
         findDay itineraries' "d1" = Some day' ->
         Day.activities day' = Some added ->
         Builder.deleteActivity itineraries' "d1" "g1"
         = Updated (SetActivities "d1" (JsArray.from (activitiesOrEmpty Sample.D1))).
Proof.
  apply (add_then_delete_round_trip sampleParseFloat Sample.days Sample.D1);
    try (reflexivity || discriminate).
  apply (bool_decide_eq_true_1 ("g1" ∉ Activity.id <$> activitiesOrEmpty Sample.D1)).
  vm_compute. reflexivity.
Defined.


Lemma addNewDay_after_a_deletion_reuses_an_order_witness :
  exists dayData (other : Day.t),
    Builder.addNewDay "t" [Sample.D2; Sample.D3] sampleNewDay "2024-04-01T00:00:00.000Z"
    = Added dayData
    /\ other ∈ [Sample.D2; Sample.D3]
    /\ Day.order other = DayData.order dayData.
Proof.
  apply (addNewDay_after_a_deletion_reuses_an_order "t" Sample.D1);
    try discriminate. reflexivity.
Defined.

(** ** The views of the budget page *)

Section BudgetViewFacts.
Variable formatDate : string -> string.

(** X13. The daily costs list the days in their order, one entry per day
    under the day's title, and add up: the entries' costs, added in that
    order in double precision from 0, give the total the budget page
    shows, and their activity counts sum to the activity count of the
    itinerary view. *)
Theorem daily_costs_add_up (itineraries : list Day.t) :
  let daily := BudgetViews.getDailyCosts formatDate itineraries in
  DailyCost.day <$> daily = Day.title <$> itineraries
  /\ Spec.sum (DailyCost.cost <$> daily) = BudgetPage.getTotalCost itineraries
  /\ sum_list (DailyCost.activities <$> daily)
     = ItineraryViewPage.getActivityCount itineraries.
Proof.
  intros daily. subst daily. unfold BudgetViews.getDailyCosts.
  split; [|split].
  - induction itineraries as [|day days IH]; [reflexivity|].
    cbn [List.map]. rewrite !fmap_cons. by rewrite IH.
  - unfold BudgetPage.getTotalCost. rewrite calculateTotalCost_spec.
    unfold Spec.totalCost. f_equal.
    induction itineraries as [|day days IH]; [reflexivity|].
    cbn [List.map]. rewrite !fmap_cons, IH. cbn [DailyCost.cost]. f_equal.
    unfold Spec.dayTotal, Spec.sum.
    rewrite (fold_left_add _ Spec.activityCost) by apply or_zero_activityCost.
    by rewrite activitiesOrEmpty_spec.
  - rewrite getActivityCount_length. unfold Spec.allActivities.
    induction itineraries as [|day days IH]; [reflexivity|].
    cbn [List.map]. rewrite fmap_cons, bind_cons, length_app, <- IH.
    unfold Spec.dayActivities. by destruct (Day.activities day).
Qed.
End BudgetViewFacts.

(** ** Budget alerts *)

Section AlertFacts.
Variable formatCurrency : float -> string.
Variable toFixed1 : float -> string.



End AlertFacts.


(** The alerts of the sample trip under a budget of 40: 37.5 is spent, so
    2.5 remains, less than a tenth of the budget, and the activities X
    (10) and Y (25) each cost more than a fifth of it. *)
Example scenario_alerts :
  Alert.type <$> BudgetViews.getBudgetAlerts (fun _ => "$") (fun _ => "%") 40%float
                   Sample.days
  = ["warning"; "info"; "info"].
Proof. vm_compute. reflexivity. Qed.

(** ** Recent searches *)

Lemma filter_queries_sublist (recent : list Search.t) (query : string) :
  List.filter (fun s => negb (bool_decide (Search.query s = query))) recent
  `sublist_of` recent.
Proof.
  induction recent as [|s recent IH]; [constructor|].
  cbn [List.filter]. destruct (negb _); by constructor.
Qed.

(** X18. After a search is saved the list of recent searches starts with
    that search, holds at most ten searches and at most one more than
    before, holds the searched text exactly once, keeps the other searches
    it retains in their order, and has pairwise distinct texts if it had
    before. *)
Theorem saveSearch_keeps_recent_searches_tidy (recentSearches : list Search.t)
    (query type : string) (now : Z) :
  let updated := saveSearch recentSearches query type now in
  head updated = Some (Search.mk query type now)
  /\ (length updated <= 10)%nat
  /\ (length updated <= S (length recentSearches))%nat
  /\ tail updated `sublist_of` recentSearches
  /\ (forall s, s ∈ tail updated -> Search.query s <> query)
  /\ (NoDup (Search.query <$> recentSearches) -> NoDup (Search.query <$> updated)).
Proof.
  intros updated. subst updated. unfold saveSearch.
  set (rest := List.filter _ recentSearches).
  assert (Hsub : rest `sublist_of` recentSearches) by apply filter_queries_sublist.
  assert (Hne : forall s, s ∈ rest -> Search.query s <> query).
  { intros s Hs. apply list_elem_of_In, filter_In in Hs as [_ Hs].
    by apply negb_true_iff, bool_decide_eq_false in Hs. }
  change (take 10 (?x :: rest)) with (x :: take 9 rest). cbn [head tail length].
  split; [reflexivity|]. split; [rewrite length_take; lia|]. split.
  { rewrite length_take. apply sublist_length in Hsub. lia. }
  split; [etrans; [apply sublist_take | exact Hsub]|]. split.
  { intros s Hs. apply Hne. eapply elem_of_sublist; [exact Hs | apply sublist_take]. }
  intros Hnd. rewrite fmap_cons. apply NoDup_cons. split.
  - intros (s & Hq & Hs)%list_elem_of_fmap. cbn in Hq.
    apply (Hne s); [|done]. eapply elem_of_sublist; [exact Hs | apply sublist_take].
  - eapply sublist_NoDup; [exact Hnd|]. apply fmap_sublist.
    etrans; [apply sublist_take | exact Hsub].
Qed.

Lemma saveSearch_keeps_recent_searches_tidy_witness :
  NoDup (Search.query
           <$> saveSearch [Search.mk "Kyoto" "cities" 1; Search.mk "Lisbon" "cities" 2]
                 "Lisbon" "activities" 3).
Proof.
  apply (saveSearch_keeps_recent_searches_tidy
           [Search.mk "Kyoto" "cities" 1; Search.mk "Lisbon" "cities" 2]
           "Lisbon" "activities" 3).
  apply (bool_decide_eq_true_1
           (NoDup (Search.query
                     <$> [Search.mk "Kyoto" "cities" 1; Search.mk "Lisbon" "cities" 2]))).
  vm_compute. reflexivity.
Defined.

(** ** Date ranges *)

Section DateRangeFacts.
Variable addDays : Z -> Z -> Z.

Hypothesis addDays_later : forall t, t < addDays t 1.

Lemma loop_ends (fuel : nat) (curr end_ : Z) (acc : list Z) :
  (Z.to_nat (end_ - curr + 1) < fuel)%nat ->
  exists days,
    DateRange.loop addDays fuel curr end_ acc = Some (acc ++ days)
    /\ DateRange.rangeFrom addDays curr end_ days.
Proof.
  revert curr acc. induction fuel as [|fuel IH]; intros curr acc Hfuel; [lia|].
  cbn [DateRange.loop]. destruct (Z.leb_spec curr end_) as [Hle|Hgt].
  - pose proof (addDays_later curr) as Hlater.
    destruct (IH (addDays curr 1) (acc ++ [curr])) as (days & Hrun & Hdays); [lia|].
    exists (curr :: days). split; [by rewrite Hrun, <- app_assoc|].
    destruct Hdays as [Hempty Hhead Hbounds Hsteps Hlast]. split.
    + split; [discriminate | lia].
    + reflexivity.
    + constructor; [lia|]. eapply Forall_impl; [exact Hbounds|]. cbn. lia.
    + intros [|i] t t'; cbn [lookup list_lookup].
      * intros [= <-] Ht'.
        destruct (Z_le_gt_dec (addDays curr 1) end_) as [Hin|Hout].
        -- apply Hhead in Hin. destruct days; [discriminate|].
           cbn in Hin, Ht'. congruence.
        -- assert (days = []) as -> by (apply Hempty; lia). discriminate.
      * apply Hsteps.
    + intros t Ht. destruct days as [|d days'].
      * cbn in Ht. injection Ht as <-.
        assert (end_ < addDays curr 1) by (by apply Hempty). lia.
      * apply Hlast. by rewrite last_cons_cons in Ht.
  - exists []. split; [by rewrite app_nil_r|]. split.
    + split; [lia | reflexivity].
    + lia.
    + constructor.
    + intros i t t' Hi. by rewrite lookup_nil in Hi.
    + discriminate.
Qed.

Lemma loop_more_fuel (fuel fuel' : nat) (curr end_ : Z) (acc days : list Z) :
  (fuel <= fuel')%nat ->
  DateRange.loop addDays fuel curr end_ acc = Some days ->
  DateRange.loop addDays fuel' curr end_ acc = Some days.
Proof.
  revert fuel' curr acc. induction fuel as [|fuel IH]; intros fuel' curr acc Hle;
    [discriminate|].
  destruct fuel' as [|fuel']; [lia|]. cbn [DateRange.loop].
  destruct (curr <=? end_); [|done]. apply IH. lia.
Qed.

(** X19. Provided [addDays] moves a date forward, the loop of
    [getDateRangeInclusive] ends: with enough fuel it returns, and the
    result does not depend on the fuel. The range is empty exactly when
    the end lies before the start; otherwise it starts with the start
    date, each date is the day after the one before, all dates are at most
    the end date, and the day after the last date is past the end date. *)
Theorem getDateRangeInclusive_ends (start end_ : Z) :
  exists days,
    (forall fuel, (Z.to_nat (end_ - start + 1) < fuel)%nat ->
       DateRange.getDateRangeInclusive addDays fuel start end_ = Some days)
    /\ (days = [] <-> end_ < start)
    /\ (start <= end_ -> head days = Some start)
    /\ Forall (fun t => start <= t <= end_) days
    /\ (forall i t t', days !! i = Some t -> days !! S i = Some t' -> t' = addDays t 1)
    /\ (forall t, last days = Some t -> end_ < addDays t 1).
Proof.
  destruct (loop_ends (S (Z.to_nat (end_ - start + 1))) start end_ [])
    as (days & Hrun & [Hempty Hhead Hbounds Hsteps Hlast]); [lia|].
  exists days. split; [|done].
  intros fuel Hfuel. unfold DateRange.getDateRangeInclusive.
  apply (loop_more_fuel (S (Z.to_nat (end_ - start + 1)))); [lia | exact Hrun].
Qed.
End DateRangeFacts.

Lemma getDateRangeInclusive_ends_witness :
  exists days,
    (forall fuel, (Z.to_nat (10 - 0 + 1) < fuel)%nat ->
       DateRange.getDateRangeInclusive (fun date amount => date + 4 * amount) fuel 0 10
       = Some days)
    /\ (days = [] <-> 10 < 0)
    /\ (0 <= 10 -> head days = Some 0)
    /\ Forall (fun t => 0 <= t <= 10) days
    /\ (forall i t t', days !! i = Some t -> days !! S i = Some t' -> t' = t + 4 * 1)
    /\ (forall t, last days = Some t -> 10 < t + 4 * 1).
Proof.
  apply (getDateRangeInclusive_ends (fun date amount => date + 4 * amount)).
  intros t. lia.
Defined.

(** The loop where every day has 86 400 000 milliseconds. *)
Lemma loop_utc (n : nat) (fuel : nat) (curr end_ : Z) (acc : list Z) :
  curr <= end_ ->
  n = Z.to_nat ((end_ - curr) / DateRange.msPerDay) ->
  (n + 2 <= fuel)%nat ->
  DateRange.loop DateRange.addDaysUTC fuel curr end_ acc
  = Some (acc ++ ((fun i => curr + Z.of_nat i * DateRange.msPerDay) <$> seq 0 (S n))).
Proof.
  revert fuel curr acc. unfold DateRange.msPerDay.
  induction n as [|n IH]; intros fuel curr acc Hle Hn Hfuel.
  - destruct fuel as [|[|fuel]]; [lia | lia |]. cbn [DateRange.loop].
    rewrite (proj2 (Z.leb_le curr end_) Hle).
    assert (end_ - curr < 86400000).
    { destruct (Z_lt_ge_dec (end_ - curr) 86400000) as [?|Hge]; [done|].
      assert (1 <= (end_ - curr) / 86400000) by (apply Z.div_le_lower_bound; lia). lia. }
    unfold DateRange.addDaysUTC, DateRange.msPerDay.
    rewrite (proj2 (Z.leb_gt _ _)) by lia.
    cbn [seq fmap list_fmap]. do 3 f_equal. lia.
  - destruct fuel as [|fuel]; [lia|]. cbn [DateRange.loop].
    rewrite (proj2 (Z.leb_le curr end_) Hle).
    assert (Hdiv : (end_ - curr) / 86400000 = Z.of_nat (S n)).
    { assert (0 <= (end_ - curr) / 86400000) by (apply Z.div_pos; lia). lia. }
    assert (Hstep : (end_ - (curr + 1 * 86400000)) / 86400000 = Z.of_nat n).
    { replace (end_ - (curr + 1 * 86400000)) with (end_ - curr + (-1) * 86400000) by lia.
      rewrite Z.div_add by lia. lia. }
    unfold DateRange.addDaysUTC at 1, DateRange.msPerDay.
    rewrite (IH fuel (curr + 1 * 86400000)); [| | lia | lia].
    + rewrite <- app_assoc. f_equal. cbn [app].
      change (seq 0 (S (S n))) with (0%nat :: seq 1 (S n)).
      rewrite fmap_cons, <- (fmap_S_seq 0 (S n)), <- list_fmap_compose.
      replace (curr + Z.of_nat 0 * 86400000) with curr by lia.
      apply (f_equal (app acc)), (f_equal (cons curr)).
      apply list_fmap_ext. intros i x _. cbn [compose]. lia.
    + assert (0 <= (end_ - (curr + 1 * 86400000)) / 86400000) by lia.
      destruct (Z_le_gt_dec (curr + 1 * 86400000) end_) as [?|Hgt]; [done|].
      assert ((end_ - (curr + 1 * 86400000)) / 86400000 < 0)
        by (apply Z.div_lt_upper_bound; lia).
      lia.
Qed.

(** X20. Where every day of the range has 86 400 000 milliseconds (no
    clock change), a range whose end is not before its start consists of
    the start date and the dates one, two, .. whole days later, up to the
    last one that is not past the end: their number is the number of
    whole days between start and end, plus one. *)
Theorem getDateRangeInclusive_whole_days (fuel : nat) (start end_ : Z) :
  start <= end_ ->
  (Z.to_nat ((end_ - start) / DateRange.msPerDay) + 2 <= fuel)%nat ->
  DateRange.getDateRangeInclusive DateRange.addDaysUTC fuel start end_
  = Some ((fun i => start + Z.of_nat i * DateRange.msPerDay)
            <$> seq 0 (S (Z.to_nat ((end_ - start) / DateRange.msPerDay)))).
Proof.
  intros Hle Hfuel. unfold DateRange.getDateRangeInclusive.
  by rewrite (loop_utc (Z.to_nat ((end_ - start) / DateRange.msPerDay))).
Qed.

Lemma getDateRangeInclusive_whole_days_witness :
  DateRange.getDateRangeInclusive DateRange.addDaysUTC 10 1000 (1000 + 3 * 86400000)
  = Some ((fun i => 1000 + Z.of_nat i * DateRange.msPerDay)
            <$> seq 0 (S (Z.to_nat ((1000 + 3 * 86400000 - 1000) / DateRange.msPerDay)))).
Proof. apply getDateRangeInclusive_whole_days; [lia | vm_compute; lia]. Defined.

(** ** A move between days, in the store *)

Lemma mapM_from {A} (xs : list A) :
  mapM (fun a : option A => a) (JsArray.from xs) = Some xs.
Proof.
  unfold JsArray.from. induction xs as [|x xs IH]; [reflexivity|].
  rewrite fmap_cons. cbn. rewrite IH. reflexivity.
Qed.

Lemma applyWrite_activities (store : gmap string Day.t) (docId : string)
    (activities : list Activity.t) :
  applyWrite store (SetActivities docId (JsArray.from activities))
  = alter (withActivities activities) docId store.
Proof. cbn [applyWrite]. by rewrite mapM_from. Qed.

Lemma handleDragEnd_between_days (itineraries : list Day.t) (sourceDay destDay : Day.t)
    (sourceId destId : string) (s d : Z) (moved : Activity.t) :
  findDay itineraries sourceId = Some sourceDay ->
  findDay itineraries destId = Some destDay ->
  sourceId <> destId ->
  0 <= s -> activitiesOrEmpty sourceDay !! Z.to_nat s = Some moved ->
  0 <= d <= Z.of_nat (length (activitiesOrEmpty destDay)) ->
  handleDragEnd itineraries (activityDrop sourceId destId s d)
  = ([SetActivities sourceId
        (JsArray.from (Spec.removeAt (Z.to_nat s) (activitiesOrEmpty sourceDay)));
      SetActivities destId
        (JsArray.from (Spec.insertAt (Z.to_nat d) moved (activitiesOrEmpty destDay)))],
     Returned).
Proof.
  intros Hs Hd Hne H0 Hmoved Hdest. unfold handleDragEnd, activityDrop.
  cbn [destination source type index droppableId].
  rewrite bool_decide_eq_false_2 by discriminate.
  rewrite bool_decide_eq_true_2 by reflexivity.
  rewrite bool_decide_eq_false_2 by exact Hne.
  rewrite Hs, Hd. fold (activitiesOrEmpty sourceDay). fold (activitiesOrEmpty destDay).
  by rewrite (movedActivities_in_range _ _ s d moved).
Qed.

(** X21. A move of an activity between two different loaded days (valid
    indices) issues two independent writes. Once both are applied, the
    source document holds its list without the activity, the destination
    document holds its list with the activity at the drop position, and
    no other document has changed. Applied alone, the write to the
    destination leaves the activity in both documents, and the write to
    the source leaves the destination as it was, without the activity. *)
Theorem move_between_days_in_the_store (store : gmap string Day.t)
    (itineraries : list Day.t) (sourceDay destDay : Day.t) (sourceId destId : string)
    (sourceIndex destIndex : Z) :
  findDay itineraries sourceId = Some sourceDay ->
  findDay itineraries destId = Some destDay ->
  sourceId <> destId ->
  store !! sourceId = Some sourceDay ->
  store !! destId = Some destDay ->
  0 <= sourceIndex < Z.of_nat (length (activitiesOrEmpty sourceDay)) ->
  0 <= destIndex <= Z.of_nat (length (activitiesOrEmpty destDay)) ->
  exists (moved : Activity.t) (toSource toDest : write) (src' dst' : list Activity.t),
    activitiesOrEmpty sourceDay !! Z.to_nat sourceIndex = Some moved
    /\ handleDragEnd itineraries (activityDrop sourceId destId sourceIndex destIndex)
       = ([toSource; toDest], Returned)
    /\ src' = Spec.removeAt (Z.to_nat sourceIndex) (activitiesOrEmpty sourceDay)
    /\ dst' = Spec.insertAt (Z.to_nat destIndex) moved (activitiesOrEmpty destDay)
    /\ applyWrites store [toSource; toDest] !! sourceId
       = Some (withActivities src' sourceDay)
    /\ applyWrites store [toSource; toDest] !! destId
       = Some (withActivities dst' destDay)
    /\ (forall docId, docId <> sourceId -> docId <> destId ->
          applyWrites store [toSource; toDest] !! docId = store !! docId)
    /\ (applyWrites store [toDest] !! sourceId = Some sourceDay
        /\ applyWrites store [toDest] !! destId = Some (withActivities dst' destDay)
        /\ moved ∈ activitiesOrEmpty sourceDay /\ moved ∈ dst')
    /\ (applyWrites store [toSource] !! sourceId = Some (withActivities src' sourceDay)
        /\ applyWrites store [toSource] !! destId = Some destDay).
Proof.
  intros Hs Hd Hne Hss Hsd Hsi Hdi.
  destruct (lookup_in_range _ sourceIndex Hsi) as [moved Hmoved].
  exists moved. do 4 eexists.
  split; [exact Hmoved|].
  split; [apply (handleDragEnd_between_days _ sourceDay destDay); (done || lia)|].
  split; [reflexivity|]. split; [reflexivity|].
  unfold applyWrites. cbn [foldl]. rewrite !applyWrite_activities.
  repeat split.
  - by rewrite lookup_alter_ne, lookup_alter_eq, Hss by done.
  - by rewrite lookup_alter_eq, lookup_alter_ne, Hsd by done.
  - intros docId H1 H2. by rewrite !lookup_alter_ne by done.
  - by rewrite lookup_alter_ne, Hss by done.
  - by rewrite lookup_alter_eq, Hsd.
  - by eapply list_elem_of_lookup_2.
  - eapply list_elem_of_lookup_2. apply insertAt_lookup. lia.
  - by rewrite lookup_alter_eq, Hss.
  - by rewrite lookup_alter_ne, Hsd by done.
Qed.

Lemma move_between_days_in_the_store_witness :
  exists (moved : Activity.t) (toSource toDest : write) (src' dst' : list Activity.t),
    activitiesOrEmpty Sample.D1 !! Z.to_nat 0 = Some moved
    /\ handleDragEnd Sample.days (activityDrop "d1" "d2" 0 1)
       = ([toSource; toDest], Returned)
    /\ src' = Spec.removeAt (Z.to_nat 0) (activitiesOrEmpty Sample.D1)
    /\ dst' = Spec.insertAt (Z.to_nat 1) moved (activitiesOrEmpty Sample.D2)
    /\ applyWrites Sample.store [toSource; toDest] !! "d1"
       = Some (withActivities src' Sample.D1)
    /\ applyWrites Sample.store [toSource; toDest] !! "d2"
       = Some (withActivities dst' Sample.D2)
    /\ (forall docId, docId <> "d1" -> docId <> "d2" ->
          applyWrites Sample.store [toSource; toDest] !! docId = Sample.store !! docId)
    /\ (applyWrites Sample.store [toDest] !! "d1" = Some Sample.D1
        /\ applyWrites Sample.store [toDest] !! "d2" = Some (withActivities dst' Sample.D2)
        /\ moved ∈ activitiesOrEmpty Sample.D1 /\ moved ∈ dst')
    /\ (applyWrites Sample.store [toSource] !! "d1" = Some (withActivities src' Sample.D1)
        /\ applyWrites Sample.store [toSource] !! "d2" = Some Sample.D2).
Proof.
  apply (move_between_days_in_the_store Sample.store Sample.days Sample.D1 Sample.D2);
    (reflexivity || discriminate || (simpl; lia)).
Defined.

(** ** A move between days and the aggregates *)

Lemma afterActivitiesWrite_id (docId : string) (activities : list Activity.t) (day : Day.t) :
  Day.id (afterActivitiesWrite docId activities day) = Day.id day.
Proof. unfold afterActivitiesWrite. by case_bool_decide. Qed.

Lemma afterActivitiesWrite_ids (docId : string) (activities : list Activity.t)
    (days : list Day.t) :
  Day.id <$> (afterActivitiesWrite docId activities <$> days) = Day.id <$> days.
Proof.
  rewrite <- list_fmap_compose. apply list_fmap_ext.
  intros i day _. apply afterActivitiesWrite_id.
Qed.

Lemma afterActivitiesWrite_absent (docId : string) (activities : list Activity.t)
    (days : list Day.t) :
  docId ∉ Day.id <$> days -> afterActivitiesWrite docId activities <$> days = days.
Proof.
  induction days as [|day days IH]; [reflexivity|].
  rewrite !fmap_cons, not_elem_of_cons. intros [Hne Hrest].
  rewrite IH by done. unfold afterActivitiesWrite.
  by rewrite bool_decide_eq_false_2 by congruence.
Qed.

(** Writing the activities of one day exchanges that day's activities and
    leaves those of the other days. *)
Lemma allActivities_after_write (days : list Day.t) (docId : string)
    (activities : list Activity.t) (day0 : Day.t) :
  NoDup (Day.id <$> days) -> day0 ∈ days -> Day.id day0 = docId ->
  exists others,
    Spec.allActivities days ≡ₚ Spec.dayActivities day0 ++ others
    /\ Spec.allActivities (afterActivitiesWrite docId activities <$> days)
       ≡ₚ activities ++ others.
Proof.
  unfold Spec.allActivities. intros Hnd Hin Hid.
  induction days as [|day days IH]; [by apply elem_of_nil in Hin|].
  rewrite fmap_cons in Hnd. apply NoDup_cons in Hnd as [Hnotin Hnd].
  rewrite fmap_cons, !bind_cons.
  apply elem_of_cons in Hin as [<-|Hin].
  - exists (days ≫= Spec.dayActivities). split; [reflexivity|].
    rewrite afterActivitiesWrite_absent by (by rewrite <- Hid).
    unfold afterActivitiesWrite. by rewrite bool_decide_eq_true_2.
  - destruct (IH Hnd Hin) as (others & H1 & H2).
    exists (Spec.dayActivities day ++ others). split.
    + rewrite H1. by rewrite !app_assoc, (Permutation_app_comm (Spec.dayActivities day)).
    + rewrite H2. unfold afterActivitiesWrite at 1.
      rewrite bool_decide_eq_false_2.
      * by rewrite !app_assoc, (Permutation_app_comm (Spec.dayActivities day)).
      * intros Heq. apply Hnotin. rewrite Heq, <- Hid. by apply list_elem_of_fmap_2.
Qed.

Lemma aggregates_of_permuted_activities (days days' : list Day.t) :
  Spec.allActivities days' ≡ₚ Spec.allActivities days ->
  ItineraryViewPage.getActivityCount days' = ItineraryViewPage.getActivityCount days
  /\ ItineraryViewPage.getCategoryBreakdown days'
     = ItineraryViewPage.getCategoryBreakdown days.
Proof.
  intros Hperm. split.
  - rewrite !getActivityCount_length. by rewrite Hperm.
  - unfold ItineraryViewPage.getCategoryBreakdown. rewrite !getCategoryBreakdown_flat.
    apply map_eq. intros c. rewrite !breakdown_lookup.
    assert (Hcount : Spec.countLabel "activity" c (Spec.allActivities days')
                     = Spec.countLabel "activity" c (Spec.allActivities days)).
    { unfold Spec.countLabel. apply Permutation_length. by rewrite Hperm. }
    by rewrite Hcount.
Qed.

(** X22. A move of an activity between two different loaded days (valid
    indices, distinct document ids) does not change what the trip holds:
    when the loaded days are read again from the store after both writes,
    the activities of the trip are the same ones, in another order, and
    the activity count and the category breakdown are what they were. *)
Theorem move_between_days_keeps_the_totals (store : gmap string Day.t)
    (itineraries itineraries' : list Day.t) (sourceDay destDay : Day.t)
    (sourceId destId : string) (sourceIndex destIndex : Z) :
  NoDup (Day.id <$> itineraries) ->
  (forall day, day ∈ itineraries -> store !! Day.id day = Some day) ->
  findDay itineraries sourceId = Some sourceDay ->
  findDay itineraries destId = Some destDay ->
  sourceId <> destId ->
  0 <= sourceIndex < Z.of_nat (length (activitiesOrEmpty sourceDay)) ->
  0 <= destIndex <= Z.of_nat (length (activitiesOrEmpty destDay)) ->
  Forall2 (fun day day' =>
             applyWrites store
               (handleDragEnd itineraries
                  (activityDrop sourceId destId sourceIndex destIndex)).1
             !! Day.id day = Some day')
          itineraries itineraries' ->
  Spec.allActivities itineraries' ≡ₚ Spec.allActivities itineraries
  /\ ItineraryViewPage.getActivityCount itineraries'
     = ItineraryViewPage.getActivityCount itineraries
  /\ ItineraryViewPage.getCategoryBreakdown itineraries'
     = ItineraryViewPage.getCategoryBreakdown itineraries.
Proof.
  intros Hnd Hstore Hs Hd Hne Hsi Hdi Hreload.
  destruct (lookup_in_range _ sourceIndex Hsi) as [moved Hmoved].
  rewrite (handleDragEnd_between_days _ sourceDay destDay _ _ _ _ moved) in Hreload
    by (done || lia).
  cbn [fst] in Hreload. unfold applyWrites in Hreload. cbn [foldl] in Hreload.
  rewrite !applyWrite_activities in Hreload.
  set (src := activitiesOrEmpty sourceDay) in *.
  set (dst := activitiesOrEmpty destDay) in *.
  set (src' := Spec.removeAt (Z.to_nat sourceIndex) src) in *.
  set (dst' := Spec.insertAt (Z.to_nat destIndex) moved dst) in *.
  set (days1 := afterActivitiesWrite sourceId src' <$> itineraries).
  assert (Hdays' : itineraries' = afterActivitiesWrite destId dst' <$> days1).
  { subst days1. clear Hnd Hs Hd. revert Hstore.
    induction Hreload as [|day day' days days' Hday _ IH]; intros Hstore; [reflexivity|].
    rewrite !fmap_cons. f_equal.
    - pose proof (Hstore day (list_elem_of_here _ _)) as Hold.
      unfold afterActivitiesWrite.
      destruct (decide (Day.id day = destId)) as [Hisd|Hnotd];
        destruct (decide (Day.id day = sourceId)) as [Hiss|Hnots];
        try congruence.
      + rewrite <- Hisd, lookup_alter_eq, lookup_alter_ne, Hold in Hday by congruence.
        cbn in Hday. injection Hday as <-.
        rewrite (bool_decide_eq_false_2 (Day.id day = sourceId)) by done.
        by rewrite bool_decide_eq_true_2.
      + rewrite lookup_alter_ne, <- Hiss, lookup_alter_eq, Hold in Hday by congruence.
        cbn in Hday. injection Hday as <-.
        rewrite (bool_decide_eq_true_2 (Day.id day = sourceId)) by done.
        by rewrite bool_decide_eq_false_2.
      + rewrite !lookup_alter_ne, Hold in Hday by congruence.
        injection Hday as <-.
        rewrite (bool_decide_eq_false_2 (Day.id day = sourceId)) by done.
        by rewrite bool_decide_eq_false_2.
    - apply IH. intros d0 Hd0. apply Hstore. by apply list_elem_of_further. }
  apply findDay_Some in Hs as [Hsin Hsid]. apply findDay_Some in Hd as [Hdin Hdid].
  assert (Hperm : Spec.allActivities itineraries' ≡ₚ Spec.allActivities itineraries);
    [|split; [exact Hperm | by apply aggregates_of_permuted_activities]].
  rewrite Hdays'.
  destruct (allActivities_after_write itineraries sourceId src' sourceDay Hnd Hsin Hsid)
    as (others1 & H1 & H1').
  fold days1 in H1'.
  destruct (allActivities_after_write days1 destId dst' destDay) as (others2 & H2 & H2').
  { subst days1. by rewrite afterActivitiesWrite_ids. }
  { subst days1. apply list_elem_of_fmap. exists destDay. split; [|exact Hdin].
    unfold afterActivitiesWrite. rewrite bool_decide_eq_false_2; [reflexivity|congruence]. }
  { exact Hdid. }
  rewrite H2', H1. rewrite <- !activitiesOrEmpty_spec in *. fold src dst in H1, H2 |- *.
  subst dst'. rewrite insertAt_perm.
  rewrite <- (removeAt_perm src moved (Z.to_nat sourceIndex) Hmoved). fold src'.
  cbn [app]. apply Permutation_cons; [reflexivity|].
  by rewrite <- H2, H1'.
Qed.

Lemma move_between_days_keeps_the_totals_witness :
  Spec.allActivities
    [withActivities [Sample.Y] Sample.D1;
     withActivities [Sample.P; Sample.X; Sample.Q'] Sample.D2; Sample.D3]
  ≡ₚ Spec.allActivities Sample.days
  /\ ItineraryViewPage.getActivityCount
       [withActivities [Sample.Y] Sample.D1;
        withActivities [Sample.P; Sample.X; Sample.Q'] Sample.D2; Sample.D3]
     = ItineraryViewPage.getActivityCount Sample.days
  /\ ItineraryViewPage.getCategoryBreakdown
       [withActivities [Sample.Y] Sample.D1;
        withActivities [Sample.P; Sample.X; Sample.Q'] Sample.D2; Sample.D3]
     = ItineraryViewPage.getCategoryBreakdown Sample.days.
Proof.
  apply (move_between_days_keeps_the_totals Sample.store Sample.days _
           Sample.D1 Sample.D2 "d1" "d2" 0 1);
    try (reflexivity || discriminate || (simpl; lia)).
  - apply (bool_decide_eq_true_1 (NoDup (Day.id <$> Sample.days))).
    vm_compute. reflexivity.
  - intros day Hday.
    repeat (apply elem_of_cons in Hday as [-> | Hday]); try reflexivity.
    by apply elem_of_nil in Hday.
  - repeat constructor.
Defined.

(** The total cost is not among the figures a move keeps: it is summed
    again, in the new order. Moving the activity that costs 0.2 from a day
    with the costs 0.1 and 0.2 to a day with the cost 0.3 changes the total
    from 0.6000000000000001 to 0.6. *)
Example scenario_move_changes_the_total :
  handleDragEnd [Sample.D5; Sample.D6] (activityDrop "d5" "d6" 1 0)
  = ([SetActivities "d5" (JsArray.from [Sample.A1]);
      SetActivities "d6" (JsArray.from [Sample.A2; Sample.A3])],
     Returned)
  /\ Helpers.calculateTotalCost [Sample.D5; Sample.D6] = 0.6000000000000001%float
  /\ Helpers.calculateTotalCost
       [withActivities [Sample.A1] Sample.D5;
        withActivities [Sample.A2; Sample.A3] Sample.D6]
     = 0.6%float.
Proof. split; [|split]; vm_compute; reflexivity. Qed.

(** ** The regular expression matcher *)

Section RegexFacts.
Implicit Types (r : Regex.t) (s : list N) (c : N).

Lemma alt_lang r1 r2 s :
  Regex.lang (Regex.Alt r1 r2) s <-> Regex.lang r1 s \/ Regex.lang r2 s.
Proof.
  split.
  - intros H. inversion H; subst; auto.
  - intros [H|H]; [by apply Regex.lang_alt_l | by apply Regex.lang_alt_r].
Qed.

Lemma seq_lang r1 r2 s :
  Regex.lang (Regex.Seq r1 r2) s
  <-> exists s1 s2, s = s1 ++ s2 /\ Regex.lang r1 s1 /\ Regex.lang r2 s2.
Proof.
  split.
  - intros H. inversion H; subst. eexists _, _. eauto.
  - intros (s1 & s2 & -> & H1 & H2). by constructor.
Qed.

Lemma plus_lang r s :
  Regex.lang (Regex.Plus r) s
  <-> exists s1 s2, s = s1 ++ s2 /\ Regex.lang r s1 /\ Regex.lang (Regex.Star r) s2.
Proof.
  split.
  - intros H. inversion H; subst. eexists _, _. eauto.
  - intros (s1 & s2 & -> & H1 & H2). by constructor.
Qed.

Lemma single_class (accepts : N -> bool) s :
  Regex.lang (Regex.Class accepts) s <-> exists c, s = [c] /\ accepts c = true.
Proof.
  split.
  - intros H. inversion H; subst. eauto.
  - intros (c & -> & Hc). by constructor.
Qed.

Lemma never_lang s : ~ Regex.lang Regex.Never s.
Proof. intros H. inversion H. Qed.

Lemma epsilon_lang s : Regex.lang Regex.Epsilon s <-> s = [].
Proof. split; [intros H; by inversion H | intros ->; constructor]. Qed.

Lemma nullable_lang r : Regex.nullable r = true <-> Regex.lang r [].
Proof.
  induction r as [| |accepts|r1 IH1 r2 IH2|r1 IH1 r2 IH2|r IH|r IH]; cbn [Regex.nullable].
  - split; [discriminate | intros H; by apply never_lang in H].
  - split; [constructor | reflexivity].
  - split; [discriminate | intros (c & [=] & _)%single_class].
  - by rewrite orb_true_iff, IH1, IH2, alt_lang.
  - rewrite andb_true_iff, IH1, IH2, seq_lang. split.
    + intros [H1 H2]. by exists [], [].
    + intros (s1 & s2 & Heq & H1 & H2).
      symmetry in Heq. apply app_eq_nil in Heq as [-> ->]. by split.
  - split; [constructor | reflexivity].
  - rewrite IH, plus_lang. split.
    + intros H. exists [], []. split; [reflexivity|]. split; [exact H | constructor].
    + intros (s1 & s2 & Heq & H1 & H2).
      symmetry in Heq. apply app_eq_nil in Heq as [-> ->]. exact H1.
Qed.

(** A non-empty match of a repetition starts with a non-empty match of
    the repeated expression. *)
Lemma star_cons r c s :
  Regex.lang (Regex.Star r) (c :: s) ->
  exists s1 s2, s = s1 ++ s2 /\ Regex.lang r (c :: s1) /\ Regex.lang (Regex.Star r) s2.
Proof.
  intros H. remember (Regex.Star r) as r' eqn:Hr. remember (c :: s) as cs eqn:Hcs.
  revert s Hcs.
  induction H as [| | | | | |r0 s1 s2 H1 _ H2 IH2|]; try discriminate.
  injection Hr as ->. intros s Hcs.
  destruct s1 as [|c1 s1].
  - apply (IH2 eq_refl). exact Hcs.
  - cbn in Hcs. injection Hcs as -> <-. by exists s1, s2.
Qed.

Lemma star_lang_cons r c s :
  Regex.lang (Regex.Star r) (c :: s)
  <-> exists s1 s2, s = s1 ++ s2 /\ Regex.lang r (c :: s1) /\ Regex.lang (Regex.Star r) s2.
Proof.
  split; [apply star_cons|].
  intros (s1 & s2 & -> & H1 & H2). by apply (Regex.lang_star_more r (c :: s1) s2).
Qed.

Lemma derivative_lang r c s :
  Regex.lang (Regex.derivative c r) s <-> Regex.lang r (c :: s).
Proof.
  revert s.
  induction r as [| |accepts|r1 IH1 r2 IH2|r1 IH1 r2 IH2|r IH|r IH]; intros s;
    cbn [Regex.derivative].
  - split; intros H; by apply never_lang in H.
  - split; intros H; [by apply never_lang in H | by apply epsilon_lang in H].
  - rewrite single_class. destruct (accepts c) eqn:Hc.
    + rewrite epsilon_lang. split.
      * intros ->. by exists c.
      * by intros (c' & [= <- ->] & _).
    + split; [intros H; by apply never_lang in H|].
      intros (c' & [= <- ->] & Hc'). congruence.
  - by rewrite !alt_lang, IH1, IH2.
  - assert (Hseq : Regex.lang (Regex.Seq (Regex.derivative c r1) r2) s
                   <-> exists s1 s2, s = s1 ++ s2 /\ Regex.lang r1 (c :: s1)
                                     /\ Regex.lang r2 s2).
    { rewrite seq_lang. split; intros (s1 & s2 & -> & H1 & H2); exists s1, s2;
        (split; [reflexivity|]); (split; [by apply IH1 | exact H2]). }
    assert (Hfull : Regex.lang (Regex.Seq r1 r2) (c :: s)
                    <-> (exists s1 s2, s = s1 ++ s2 /\ Regex.lang r1 (c :: s1)
                                       /\ Regex.lang r2 s2)
                        \/ (Regex.lang r1 [] /\ Regex.lang r2 (c :: s))).
    { rewrite seq_lang. split.
      - intros (s1 & s2 & Heq & H1 & H2). destruct s1 as [|c1 s1].
        + right. cbn in Heq. subst s2. by split.
        + left. cbn in Heq. injection Heq as -> ->. by exists s1, s2.
      - intros [(s1 & s2 & -> & H1 & H2) | [H1 H2]].
        + by exists (c :: s1), s2.
        + by exists [], (c :: s). }
    rewrite Hfull. destruct (Regex.nullable r1) eqn:Hn.
    + rewrite alt_lang, Hseq, IH2. apply nullable_lang in Hn. tauto.
    + rewrite Hseq. split; [by left|]. intros [H|[H _]]; [exact H|].
      apply nullable_lang in H. congruence.
  - rewrite seq_lang, star_lang_cons.
    split; intros (s1 & s2 & -> & H1 & H2); exists s1, s2;
      (split; [reflexivity|]); (split; [by apply IH | exact H2]).
  - rewrite seq_lang, plus_lang. split.
    + intros (s1 & s2 & -> & H1 & H2). exists (c :: s1), s2.
      split; [reflexivity|]. split; [by apply IH | exact H2].
    + intros (s1 & s2 & Heq & H1 & H2). destruct s1 as [|c1 s1].
      * cbn in Heq. subst s2. apply star_cons in H2 as (s1 & s2 & -> & H2 & H3).
        exists s1, s2. split; [reflexivity|]. split; [by apply IH | exact H3].
      * cbn in Heq. injection Heq as -> ->. exists s1, s2.
        split; [reflexivity|]. split; [by apply IH | exact H2].
Qed.

(** The matcher decides the language. *)
Lemma test_lang r s : Regex.test r s = true <-> Regex.lang r s.
Proof.
  unfold Regex.test. revert r.
  induction s as [|c s IH]; intros r; cbn [fold_left].
  - apply nullable_lang.
  - rewrite IH. apply derivative_lang.
Qed.

Lemma star_class (accepts : N -> bool) s :
  Regex.lang (Regex.Star (Regex.Class accepts)) s <-> Forall (fun c => accepts c = true) s.
Proof.
  induction s as [|c s IH].
  - split; constructor.
  - rewrite star_lang_cons, Forall_cons. split.
    + intros (s1 & s2 & Heq & Hcl & H2).
      apply single_class in Hcl as (c' & Hc' & Hc).
      injection Hc' as <- Hs1. subst s1. cbn [app] in Heq. subst s2.
      split; [exact Hc | by apply IH].
    + intros [Hc Hs]. exists [], s. split; [reflexivity|].
      split; [by constructor | by apply IH].
Qed.

Lemma plus_class (accepts : N -> bool) s :
  Regex.lang (Regex.Plus (Regex.Class accepts)) s
  <-> s <> [] /\ Forall (fun c => accepts c = true) s.
Proof.
  rewrite plus_lang. split.
  - intros (s1 & s2 & -> & (c & -> & Hc)%single_class & H2). cbn [app].
    split; [discriminate|]. constructor; [exact Hc | by apply star_class].
  - intros [Hne Hall]. destruct s as [|c s]; [done|].
    apply Forall_cons in Hall as [Hc Hall].
    exists [c], s. split; [reflexivity|]. split; [by constructor | by apply star_class].
Qed.
End RegexFacts.

(** The addresses [isValidEmail] accepts. *)
Lemma isValidEmail_shape (email : list N) :
  Email.isValidEmail email = true
  <-> exists name domain tld,
        email = name ++ [Email.at_sign] ++ domain ++ [Email.dot] ++ tld
        /\ name <> [] /\ domain <> [] /\ tld <> []
        /\ Forall (fun c => Email.notSpaceNorAt c = true) (name ++ domain ++ tld).
Proof.
  unfold Email.isValidEmail, Email.emailRegex. rewrite test_lang. split.
  - intros (name & s1 & -> & Hname & H1)%seq_lang.
    apply seq_lang in H1 as (a & s2 & -> & Ha & H2).
    apply seq_lang in H2 as (domain & s3 & -> & Hdomain & H3).
    apply seq_lang in H3 as (d & tld & -> & Hd & Htld).
    apply single_class in Ha as (ca & -> & Hca). apply N.eqb_eq in Hca as ->.
    apply single_class in Hd as (cd & -> & Hcd). apply N.eqb_eq in Hcd as ->.
    apply plus_class in Hname as [? ?]. apply plus_class in Hdomain as [? ?].
    apply plus_class in Htld as [? ?].
    exists name, domain, tld. rewrite !Forall_app. done.
  - intros (name & domain & tld & -> & Hn & Hd & Ht & Hall).
    rewrite !Forall_app in Hall. destruct Hall as (Hn' & Hd' & Ht').
    apply Regex.lang_seq; [by apply plus_class|].
    apply Regex.lang_seq; [by constructor|].
    apply Regex.lang_seq; [by apply plus_class|].
    apply Regex.lang_seq; [by constructor | by apply plus_class].
Qed.

(** X23. [isValidEmail] accepts exactly the strings of the form
    name [@] domain [.] tld in which the three parts are not empty and
    hold neither white space nor [@]. An accepted address therefore has
    exactly one [@], no white space, and at least five code units, and it
    neither starts with [@] nor ends with [@] or with the separating dot
    directly. *)
Theorem isValidEmail_accepts (email : list N) :
  (Email.isValidEmail email = true
   <-> exists name domain tld,
         email = name ++ [Email.at_sign] ++ domain ++ [Email.dot] ++ tld
         /\ name <> [] /\ domain <> [] /\ tld <> []
         /\ Forall (fun c => Email.notSpaceNorAt c = true) (name ++ domain ++ tld))
  /\ (Email.isValidEmail email = true ->
      length (filter (fun c => c = Email.at_sign) email) = 1%nat
      /\ Forall (fun c => Email.isSpace c = false) email
      /\ (5 <= length email)%nat).
Proof.
  split; [apply isValidEmail_shape|].
  intros (name & domain & tld & -> & Hn & Hd & Ht & Hall)%isValidEmail_shape.
  rewrite !Forall_app in Hall. destruct Hall as (Hn' & Hd' & Ht').
  assert (Hclass : forall c, Email.notSpaceNorAt c = true ->
                             Email.isSpace c = false /\ c <> Email.at_sign).
  { intros c Hc. unfold Email.notSpaceNorAt in Hc.
    apply andb_true_iff in Hc as [H1 H2].
    apply negb_true_iff in H1. apply negb_true_iff, N.eqb_neq in H2. done. }
  assert (Hnone : forall s, Forall (fun c => Email.notSpaceNorAt c = true) s ->
                            filter (fun c => c = Email.at_sign) s = []
                            /\ Forall (fun c => Email.isSpace c = false) s).
  { induction 1 as [|c s Hc _ [IH1 IH2]]; [done|].
    destruct (Hclass c Hc) as [H1 H2].
    rewrite filter_cons_False by done. split; [done | by constructor]. }
  destruct (Hnone name Hn') as [Fn Sn]. destruct (Hnone domain Hd') as [Fd Sd].
  destruct (Hnone tld Ht') as [Ft St].
  split; [|split].
  - rewrite !filter_app, Fn, Fd, Ft. reflexivity.
  - rewrite !Forall_app. repeat split; try done; by repeat constructor.
  - rewrite !length_app. cbn [length].
    destruct name, domain, tld; cbn [length]; (done || lia).
Qed.

Lemma isValidEmail_accepts_witness :
  length (filter (fun c => c = Email.at_sign) (Email.ofAscii "ann@example.org")) = 1%nat
  /\ Forall (fun c => Email.isSpace c = false) (Email.ofAscii "ann@example.org")
  /\ (5 <= length (Email.ofAscii "ann@example.org"))%nat.
Proof.
  apply (proj2 (isValidEmail_accepts (Email.ofAscii "ann@example.org"))).
  vm_compute. reflexivity.
Defined.

Example isValidEmail_samples :
  Email.isValidEmail (Email.ofAscii "a@b.c") = true
  /\ Email.isValidEmail (Email.ofAscii "a@b") = false
  /\ Email.isValidEmail (Email.ofAscii "@b.c") = false
  /\ Email.isValidEmail (Email.ofAscii "a b@c.d") = false
  /\ Email.isValidEmail (Email.ofAscii "a@b@c.d") = false
  /\ Email.isValidEmail (Email.ofAscii "a@b..c") = true
  /\ Email.isValidEmail [97; 64; 98; 160; 46; 99]%N = false.
Proof. vm_compute. repeat split. Qed.
